(** * Capture endpoints of the Owl server (untitledai/server/routes/capture.py)

    A shallow embedding of the streaming and chunked capture endpoints and of
    the background task [ProcessAudioChunkTask], together with the properties
    of their control flow: which collaborators are called, with which
    arguments, what is kept in the in-memory registries and what is answered
    to the client.

    The endpoints mutate one shared application state, write to the disk, call
    services whose code lives elsewhere and may raise.  They are embedded in a
    state-and-exception monad over a [World]; every call to a collaborator is
    recorded in a chronological trace so that "is invoked with" is a statement
    about that trace. *)

From Stdlib Require Import ZArith String Ascii List Lia.
From Stdlib Require Import Strings.Byte.
From stdpp Require Import base option list gmap strings fin_maps.

Local Open Scope string_scope.
Local Open Scope list_scope.
Local Open Scope Z_scope.

(** ** Data *)

Definition bytes := list Byte.byte.

(** Python exceptions that occur in the module, all of them subclasses of
    Exception.  [detail=str(e)] is kept as the exception it was rendered
    from.  Cancellation of the running coroutine (asyncio.CancelledError, a
    BaseException that no handler of the module catches) belongs to the
    scheduler and is not modelled. *)
Inductive Exn : Type :=
| ValueError
| TypeError
| AssertionError
| KeyError
| ClientDisconnect
| HTTPException (status_code : Z) (detail : Detail)
| CollaboratorError (what : string)
with Detail : Type :=
| Text (s : string)
| StrOf (e : Exn).

(** [except Exception] catches every exception above; [except ClientDisconnect]
    only the one. *)
Definition is_ClientDisconnect (e : Exn) : bool :=
  match e with ClientDisconnect => true | _ => false end.

Record DeviceType := { value : string }.

Module CaptureFile.
Record t := {
  capture_uuid : string;
  device_type : DeviceType;
  timestamp : string;
  filepath : string
}.
End CaptureFile.

Module SegmentFile.
Record t := {
  conversation_uuid : string;
  timestamp : Z;
  file_extension : string;
  filepath : string
}.
End SegmentFile.

Record Endpoints := { start : Z; end_ : Z }.

Record Conversation := { uuid : string; endpoints : Endpoints }.

Record DetectionResults := {
  completed : list Conversation;
  in_progress : option Conversation
}.

(** models.schemas.ConversationProgress, as the task fills it. *)
Module ConversationProgress.
Record t := {
  conversation_uuid : string;
  in_conversation : bool;
  start_time : Z;
  end_time : Z;
  device_type : string
}.
End ConversationProgress.

(** The handle of a ConversationDetectionService, as constructed in
    [upload_chunk]; what the service has heard so far lives in the
    collaborators' own state. *)
Record ConversationDetectionService := {
  capture_filepath : string;
  capture_timestamp : string
}.

Record UserConfig := { voice_sample_filepath : string; name : string }.
Record CapturesConfig := { capture_dir : string }.
Record Config := { captures : CapturesConfig; user : UserConfig }.

(** ProcessAudioChunkTask: one record, [_audio_data] absent for the final run. *)
Record ProcessAudioChunkTask := {
  _capture_file : CaptureFile.t;
  _detection_service : ConversationDetectionService;
  _audio_data : option bytes;
  _format : string
}.

(** Modelled from the spec: the StreamingCaptureHandler class
    (server/streaming_capture_handler.py) is not part of the sources at hand.
    Section 4.5: a streaming session owns a frame store and a detector for one
    capture id, in a fixed container format. *)
Record StreamingCaptureHandler := {
  handler_device_type : string;
  handler_capture_uuid : string;
  handler_file_extension : string;
  handler_capture_file : CaptureFile.t;
  handler_detection_service : ConversationDetectionService
}.

Record AppState := {
  config : Config;
  capture_handlers : gmap string StreamingCaptureHandler;
  capture_files_by_id : gmap string CaptureFile.t;
  conversation_detection_service_by_id : gmap string ConversationDetectionService;
  task_queue : list ProcessAudioChunkTask
}.

Record JSONResponse := { message : string }.

Record UploadFile := { filename : string; file_content : bytes }.

(** A request body as request.stream() delivers it: the non-empty chunks
    that arrive, and whether the connection then drops (the stream raises
    ClientDisconnect) or the request ends normally (the stream yields one
    last, empty chunk). *)
Record Request := { stream : list bytes; disconnects : bool }.

Inductive LogLevel := INFO | ERROR.

(** The log lines of the module, one constructor per format string. *)
Inductive LogMsg :=
| ClientConnected
| ClientDisconnectedWhileStreaming (capture_uuid : string)
| CompletingAudioCapture (capture_uuid : string)
| CaptureSessionNotFound (capture_uuid : string)
| ErrorProcessingConversation (e : Exn)
| NoDetectionServiceExists (capture_uuid : string)
| BytesAppended (filepath : string) (bytes_written : Z)
| FailedToUploadChunk (e : Exn)
| FoundFileToProcess (filepath : option string)
| FilepathDoesNotConform (filepath : option string)
| FailedToProcess (e : Exn).

(** What the module does to the outside, in the order it does it. *)
Inductive Event :=
| Logged (level : LogLevel) (msg : LogMsg)
| DetectConversations (service : ConversationDetectionService)
    (audio_data : option bytes) (format : string) (capture_finished : bool)
| ExtractConversations (service : ConversationDetectionService)
    (conversations : list Conversation) (conversation_filepaths : list string)
| ProcessConversationFromAudio (capture_file : CaptureFile.t)
    (segment_file : SegmentFile.t) (voice_sample_filepath speaker_name : string)
| SendNotification (title body type : string) (payload : ConversationProgress.t)
| AppendToWavFile (filepath : string) (sample_bytes : bytes) (sample_rate : Z)
| FileWrite (filepath : string) (content : bytes).

(** ** Path helpers of the Python library *)

Module PyStr.

Definition dot : ascii := "."%char.
Definition slash : ascii := "/"%char.

(** s.rfind(c): the last index of [c], -1 when there is none. *)
Fixpoint rfind_from (c : ascii) (s : string) (i : Z) (found : Z) : Z :=
  match s with
  | EmptyString => found
  | String a s' =>
      rfind_from c s' (i + 1) (if Ascii.eqb a c then i else found)
  end.

Definition rfind (c : ascii) (s : string) : Z := rfind_from c s 0 (-1).

(** p[i:i+1] != '.' for some i in [from, from + n) *)
Fixpoint has_non_dot (p : string) (from : nat) (n : nat) : bool :=
  match n with
  | O => false
  | S n' =>
      match String.get from p with
      | Some a => if Ascii.eqb a dot then has_non_dot p (S from) n' else true
      | None => true
      end
  end.

(** os.path.splitext (posixpath, genericpath._splitext): the extension
    starts at the last dot of the last path component, leading dots of that
    component not counting. *)
Definition splitext (p : string) : string * string :=
  let sepIndex := rfind slash p in
  let dotIndex := rfind dot p in
  if (sepIndex <? dotIndex)
     && has_non_dot p (Z.to_nat (sepIndex + 1)) (Z.to_nat (dotIndex - (sepIndex + 1)))
  then (String.substring 0 (Z.to_nat dotIndex) p,
        String.substring (Z.to_nat dotIndex) (String.length p - Z.to_nat dotIndex)%nat p)
  else (p, "").

(** s.lstrip(".") *)
Fixpoint lstrip_dot (s : string) : string :=
  match s with
  | String a s' => if Ascii.eqb a dot then lstrip_dot s' else s
  | EmptyString => EmptyString
  end.

(** list.index(x): the first position of [x], ValueError when absent. *)
Fixpoint index {A} `{EqDecision A} (x : A) (l : list A) : Exn + Z :=
  match l with
  | [] => inl ValueError
  | y :: l' =>
      if decide (y = x) then inr 0
      else match index x l' with
           | inl e => inl e
           | inr i => inr (i + 1)
           end
  end.

End PyStr.

(** os.path.splitext(name)[1].lstrip(".") *)
Definition extension_of (name : string) : string :=
  PyStr.lstrip_dot (snd (PyStr.splitext name)).

(** ** Collaborators

    Code that the module calls and that is defined elsewhere: the glob
    library, the CaptureFile class and append_to_wav_file (untitledai/files),
    the detection, conversation and notification services.  The services keep
    state of their own ([Env]) and may raise; the segment files they write
    are part of that state, the [disk] of the world holds the backing files
    of the captures, which the endpoints write themselves. *)
Class Collaborators := {
  Env : Type;
  glob : gmap string bytes -> string -> list string;
  get_capture_uuid : string -> option string;
  from_filepath : option string -> option CaptureFile.t;
  new_capture_file : string -> string -> string -> string -> string -> CaptureFile.t;
  create_conversation_segment : CaptureFile.t -> string -> Z -> string -> SegmentFile.t;
  append_to_wav_file :
    string -> bytes -> Z -> gmap string bytes -> Exn + (Z * gmap string bytes);
  detect_conversations :
    ConversationDetectionService -> option bytes -> string -> bool ->
    Env -> (Exn + DetectionResults) * Env;
  extract_conversations :
    ConversationDetectionService -> list Conversation -> list string ->
    Env -> (Exn + unit) * Env;
  process_conversation_from_audio :
    CaptureFile.t -> SegmentFile.t -> string -> string -> Env -> (Exn + unit) * Env;
  send_notification :
    string -> string -> string -> ConversationProgress.t -> Env -> (Exn + unit) * Env;
  clock : Env -> string
}.

Section Capture.

Context `{C : Collaborators}.

(** ** The world and its monad *)

Record World := {
  app_state : AppState;
  disk : gmap string bytes;
  env : Env;
  trace : list Event
}.

Definition M (A : Type) : Type := World -> (Exn + A) * World.

#[global] Instance M_ret : MRet M := fun A a w => (inr a, w).

#[global] Instance M_bind : MBind M := fun A B k m w =>
  match m w with
  | (inr a, w') => k a w'
  | (inl e, w') => (inl e, w')
  end.

Definition raise {A} (e : Exn) : M A := fun w => (inl e, w).

(** try: body / except <handles>: handler *)
Definition try_except {A} (body : M A) (handles : Exn -> bool) (handler : Exn -> M A) : M A :=
  fun w =>
    match body w with
    | (inl e, w') => if handles e then handler e w' else (inl e, w')
    | r => r
    end.

Definition Exception : Exn -> bool := fun _ => true.

Definition get_app_state : M AppState := fun w => (inr (app_state w), w).

Definition modify_app_state (f : AppState -> AppState) : M unit :=
  fun w => (inr tt, {| app_state := f (app_state w); disk := disk w;
                       env := env w; trace := trace w |}).

Definition emit (ev : Event) : M unit :=
  fun w => (inr tt, {| app_state := app_state w; disk := disk w;
                       env := env w; trace := trace w ++ [ev] |}).

(** A call into a stateful service. *)
Definition call {A} (f : Env -> (Exn + A) * Env) : M A :=
  fun w =>
    let '(r, e') := f (env w) in
    (r, {| app_state := app_state w; disk := disk w; env := e'; trace := trace w |}).

Definition get_disk : M (gmap string bytes) := fun w => (inr (disk w), w).

Definition set_disk (d : gmap string bytes) : M unit :=
  fun w => (inr tt, {| app_state := app_state w; disk := d;
                       env := env w; trace := trace w |}).

Definition get_env : M Env := fun w => (inr (env w), w).

(** for x in xs: body(x) *)
Fixpoint for_each {A} (xs : list A) (body : A -> M unit) : M unit :=
  match xs with
  | [] => mret tt
  | x :: xs' => body x;; for_each xs' body
  end.

Definition log (level : LogLevel) (msg : LogMsg) : M unit := emit (Logged level msg).

(** ** find_audio_filepath *)

Definition find_audio_filepath_in (filepaths : list string) (capture_uuid : string)
  : Exn + option string :=
  let capture_uuids := map get_capture_uuid filepaths in
  match PyStr.index (Some capture_uuid) capture_uuids with
  | inl e => inl e
  | inr file_idx =>
      if file_idx <? 0 then inr None
      else inr (filepaths !! Z.to_nat file_idx)
  end.

(** os.path.join(audio_directory, "*/*/*") *)
Definition capture_glob_pattern (audio_directory : string) : string :=
  if decide (audio_directory = "") then "*/*/*"
  else if String.eqb (String.substring (String.length audio_directory - 1)%nat 1 audio_directory) "/"
       then audio_directory +:+ "*/*/*"
       else audio_directory +:+ "/*/*/*".

Definition find_audio_filepath (d : gmap string bytes)
    (audio_directory : string) (capture_uuid : string) : Exn + option string :=
  let filepaths := glob d (capture_glob_pattern audio_directory) in
  find_audio_filepath_in filepaths capture_uuid.

(** ** The chunk API *)

Definition supported_upload_file_extensions : gset string :=
  list_to_set [ "pcm"; "wav"; "aac" ].

Definition lift {A} (r : Exn + A) : M A :=
  match r with
  | inl e => raise e
  | inr a => mret a
  end.

(** value is None *)
Definition is_None {A} (o : option A) : bool :=
  match o with None => true | Some _ => false end.

(** ProcessAudioChunkTask.__init__, with its assertion on the format. *)
Definition new_ProcessAudioChunkTask
    (capture_file : CaptureFile.t)
    (detection_service : ConversationDetectionService)
    (format : string)
    (audio_data : option bytes) : Exn + ProcessAudioChunkTask :=
  if decide (format = "wav" ∨ format = "aac")
  then inr {| _capture_file := capture_file;
              _detection_service := detection_service;
              _audio_data := audio_data;
              _format := format |}
  else inl AssertionError.

(** app_state.task_queue.put(task) *)
Definition task_queue_put (task : ProcessAudioChunkTask) : M unit :=
  modify_app_state (fun a =>
    {| config := config a;
       capture_handlers := capture_handlers a;
       capture_files_by_id := capture_files_by_id a;
       conversation_detection_service_by_id := conversation_detection_service_by_id a;
       task_queue := task_queue a ++ [task] |}).

Definition set_capture_handlers
    (f : gmap string StreamingCaptureHandler -> gmap string StreamingCaptureHandler) : M unit :=
  modify_app_state (fun a =>
    {| config := config a;
       capture_handlers := f (capture_handlers a);
       capture_files_by_id := capture_files_by_id a;
       conversation_detection_service_by_id := conversation_detection_service_by_id a;
       task_queue := task_queue a |}).

Definition set_capture_files_by_id
    (f : gmap string CaptureFile.t -> gmap string CaptureFile.t) : M unit :=
  modify_app_state (fun a =>
    {| config := config a;
       capture_handlers := capture_handlers a;
       capture_files_by_id := f (capture_files_by_id a);
       conversation_detection_service_by_id := conversation_detection_service_by_id a;
       task_queue := task_queue a |}).

Definition set_conversation_detection_service_by_id
    (f : gmap string ConversationDetectionService -> gmap string ConversationDetectionService)
  : M unit :=
  modify_app_state (fun a =>
    {| config := config a;
       capture_handlers := capture_handlers a;
       capture_files_by_id := capture_files_by_id a;
       conversation_detection_service_by_id := f (conversation_detection_service_by_id a);
       task_queue := task_queue a |}).

(** if key in d: del d[key] *)
Definition del_if_present {V} (key : string) (d : gmap string V) : gmap string V :=
  match d !! key with
  | Some _ => delete key d
  | None => d
  end.

(** The progress record built for one conversation (run, lines 173-179 and
    185-191). *)
Definition progress_of (capture_file : CaptureFile.t) (in_conversation : bool)
    (convo : Conversation) : ConversationProgress.t :=
  {| ConversationProgress.conversation_uuid := uuid convo;
     ConversationProgress.in_conversation := in_conversation;
     ConversationProgress.start_time := start (endpoints convo);
     ConversationProgress.end_time := end_ (endpoints convo);
     ConversationProgress.device_type := value (CaptureFile.device_type capture_file) |}.

(** The list [progress_updates] of run, once both loops have filled it. *)
Definition progress_updates_of (capture_file : CaptureFile.t)
    (detection_results : DetectionResults) : list ConversationProgress.t :=
  map (progress_of capture_file false) (completed detection_results)
  ++ match in_progress detection_results with
     | Some conversation_in_progress => [ progress_of capture_file true conversation_in_progress ]
     | None => []
     end.

(** await app_state.conversation_service.process_conversation_from_audio(...) *)
Definition process_segment (capture_file : CaptureFile.t) (segment_file : SegmentFile.t)
  : M unit :=
  app_state ← get_app_state;
  let voice := voice_sample_filepath (user (config app_state)) in
  let speaker := name (user (config app_state)) in
  emit (ProcessConversationFromAudio capture_file segment_file voice speaker);;
  call (process_conversation_from_audio capture_file segment_file voice speaker).

(** await app_state.notification_service.send_notification(...) *)
Definition notify (capture_file : CaptureFile.t) (progress : ConversationProgress.t)
  : M unit :=
  let title := "New Conversation-in-Progress" in
  let body := "On device: " +:+ value (CaptureFile.device_type capture_file) in
  emit (SendNotification title body "conversation_progress" progress);;
  call (send_notification title body "conversation_progress" progress).

(** The list [segment_files] of run (lines 135-144): one segment file per
    completed conversation, in order. *)
Definition segment_files_of (capture_file : CaptureFile.t) (format : string)
    (detection_results : DetectionResults) : list SegmentFile.t :=
  map (fun convo =>
         create_conversation_segment capture_file (uuid convo)
           (start (endpoints convo)) format)
      (completed detection_results).

(** Process each completed conversation (run, lines 147-157): one try
    around the whole loop. *)
Definition process_completed (capture_file : CaptureFile.t)
    (segment_files : list SegmentFile.t) : M unit :=
  try_except
    (for_each segment_files (process_segment capture_file))
    Exception
    (fun e => log ERROR (ErrorProcessingConversation e)).

(** ProcessAudioChunkTask.run *)
Definition run (self : ProcessAudioChunkTask) : M unit :=
  let capture_file := _capture_file self in
  let audio_data := _audio_data self in
  let capture_finished := is_None audio_data in
  let format := _format self in
  let detection_service := _detection_service self in
  (* conversation detection stage *)
  emit (DetectConversations detection_service audio_data format capture_finished);;
  detection_results ←
    call (detect_conversations detection_service audio_data format capture_finished);
  (* conversation segment files, and the conversations extracted there *)
  let segment_files := segment_files_of capture_file format detection_results in
  let convo_filepaths := map SegmentFile.filepath segment_files in
  emit (ExtractConversations detection_service (completed detection_results) convo_filepaths);;
  call (extract_conversations detection_service (completed detection_results) convo_filepaths);;
  (* process each completed conversation *)
  process_completed capture_file segment_files;;
  (* progress updates to server *)
  let progress_updates := progress_updates_of capture_file detection_results in
  for_each progress_updates (notify capture_file).

(** upload_chunk, lines 231-234: raw PCM is stored as wave; the pair is the
    new [file_extension] and [write_wav_header]. *)
Definition pcm_as_wav (file_extension : string) : string * bool :=
  if decide (file_extension = "pcm") then ("wav", true) else (file_extension, false).

(** with open(filepath, "ab") as fp: fp.write(content) *)
Definition append_bytes (filepath : string) (content : bytes) : M Z :=
  emit (FileWrite filepath content);;
  d ← get_disk;
  set_disk (<[filepath := default [] (d !! filepath) ++ content]> d);;
  mret (Z.of_nat (length content)).

Definition call_append_to_wav_file (filepath : string) (sample_bytes : bytes)
    (sample_rate : Z) : M Z :=
  emit (AppendToWavFile filepath sample_bytes sample_rate);;
  d ← get_disk;
  '(bytes_written, d') ← lift (append_to_wav_file filepath sample_bytes sample_rate d);
  set_disk d';;
  mret bytes_written.

(** Look up the capture session or create a new one (upload_chunk, lines
    236-262). *)
Definition lookup_or_create_session
    (capture_uuid timestamp device_type file_extension : string)
  : M (CaptureFile.t * ConversationDetectionService) :=
  app_state ← get_app_state;
  match capture_files_by_id app_state !! capture_uuid with
  | Some capture_file =>
      match conversation_detection_service_by_id app_state !! capture_uuid with
      | Some detection_service => mret (capture_file, detection_service)
      | None =>
          log ERROR (NoDetectionServiceExists capture_uuid);;
          raise (HTTPException 500 (Text "Internal error: Lost conversation service"))
      end
  | None =>
      let capture_file :=
        new_capture_file (capture_dir (captures (config app_state)))
          capture_uuid device_type timestamp file_extension in
      set_capture_files_by_id (insert capture_uuid capture_file);;
      let detection_service :=
        {| capture_filepath := CaptureFile.filepath capture_file;
           capture_timestamp := CaptureFile.timestamp capture_file |} in
      set_conversation_detection_service_by_id (insert capture_uuid detection_service);;
      mret (capture_file, detection_service)
  end.

Definition upload_chunk (file : UploadFile)
    (capture_uuid timestamp device_type : string) : M JSONResponse :=
  try_except
    ((* validate file format *)
     let file_extension := extension_of (filename file) in
     if decide (file_extension ∈ supported_upload_file_extensions) then
       let '(file_extension, write_wav_header) := pcm_as_wav file_extension in
       '(capture_file, detection_service) ←
         lookup_or_create_session capture_uuid timestamp device_type file_extension;
       (* uploaded data *)
       let content := file_content file in
       (* append to file *)
       bytes_written ←
         (if write_wav_header
          then call_append_to_wav_file (CaptureFile.filepath capture_file) content 16000
          else append_bytes (CaptureFile.filepath capture_file) content);
       log INFO (BytesAppended (CaptureFile.filepath capture_file) bytes_written);;
       (* conversation processing task *)
       task ← lift (new_ProcessAudioChunkTask capture_file detection_service
                      file_extension (Some content));
       task_queue_put task;;
       mret {| message := "Audio processed" |}
     else
       mret {| message :=
                 "Failed to process because file extension is unsupported: "
                 +:+ file_extension |})
    Exception
    (fun e =>
       log ERROR (FailedToUploadChunk e);;
       raise (HTTPException 500 (StrOf e))).

(** process_capture.  The second raise of the source misspells the keyword
    (status_Code), so constructing that HTTPException is itself a
    TypeError; the handler at the bottom turns either into a 500. *)
Definition process_capture (capture_uuid : string) : M JSONResponse :=
  try_except
    (app_state ← get_app_state;
     d ← get_disk;
     filepath ← lift (find_audio_filepath d
                        (capture_dir (captures (config app_state))) capture_uuid);
     log INFO (FoundFileToProcess filepath);;
     match from_filepath filepath with
     | None =>
         log ERROR (FilepathDoesNotConform filepath);;
         raise (HTTPException 500
                  (Text "Internal error: File is incorrectly named on server"))
     | Some capture_file =>
         match conversation_detection_service_by_id app_state !! capture_uuid with
         | None =>
             log ERROR (NoDetectionServiceExists capture_uuid);;
             raise TypeError
         | Some detection_service =>
             task ← lift (new_ProcessAudioChunkTask capture_file detection_service
                            (extension_of (CaptureFile.filepath capture_file)) None);
             task_queue_put task;;
             (* remove from app state *)
             set_capture_files_by_id (del_if_present capture_uuid);;
             set_conversation_detection_service_by_id (del_if_present capture_uuid);;
             mret {| message := "Conversation processed" |}
         end
     end)
    Exception
    (fun e =>
       log ERROR (FailedToProcess e);;
       raise (HTTPException 500 (StrOf e))).

(** ** The stream API *)

(** Modelled from the spec: StreamingCaptureHandler.__init__ is not part of
    the sources at hand.  Section 4.5: the first frame creates the session,
    a frame store and a detector bound to its file, in the given format. *)
Definition new_StreamingCaptureHandler (app_state : AppState)
    (device_type capture_uuid file_extension now : string) : StreamingCaptureHandler :=
  let capture_file :=
    new_capture_file (capture_dir (captures (config app_state)))
      capture_uuid device_type now file_extension in
  {| handler_device_type := device_type;
     handler_capture_uuid := capture_uuid;
     handler_file_extension := file_extension;
     handler_capture_file := capture_file;
     handler_detection_service :=
       {| capture_filepath := CaptureFile.filepath capture_file;
          capture_timestamp := CaptureFile.timestamp capture_file |} |}.

(** Modelled from the spec: StreamingCaptureHandler.handle_audio_data is not
    part of the sources at hand.  Section 4.5: every frame is appended to the
    frame store and a processing task carrying the new bytes is submitted. *)
Definition handle_audio_data (self : StreamingCaptureHandler) (chunk : bytes) : M unit :=
  append_bytes (CaptureFile.filepath (handler_capture_file self)) chunk;;
  task ← lift (new_ProcessAudioChunkTask (handler_capture_file self)
                 (handler_detection_service self) (handler_file_extension self)
                 (Some chunk));
  task_queue_put task.

(** Modelled from the spec: StreamingCaptureHandler.finish_capture_session
    is not part of the sources at hand.  Section 4.5: on the completion
    signal one final processing task with no new bytes is submitted; the
    session is not removed from the registry. *)
Definition finish_capture_session (self : StreamingCaptureHandler) : M unit :=
  task ← lift (new_ProcessAudioChunkTask (handler_capture_file self)
                 (handler_detection_service self) (handler_file_extension self)
                 None);
  task_queue_put task.

(** async for chunk in request.stream(): body(chunk).  After the chunks that
    arrived the stream raises ClientDisconnect when the client went away, and
    yields the empty chunk when the request ends normally. *)
Definition consume_stream (request : Request) (body : bytes -> M unit) : M unit :=
  for_each (stream request) body;;
  if disconnects request then raise ClientDisconnect else body [].

Definition streaming_post (request : Request) (capture_uuid device_type : string)
  : M JSONResponse :=
  log INFO ClientConnected;;
  try_except
    (app_state ← get_app_state;
     match capture_handlers app_state !! capture_uuid with
     | Some _ => mret tt
     | None =>
         e ← get_env;
         set_capture_handlers
           (insert capture_uuid
              (new_StreamingCaptureHandler app_state device_type capture_uuid "wav" (clock e)))
     end;;
     app_state ← get_app_state;
     capture_handler ←
       match capture_handlers app_state !! capture_uuid with
       | Some h => mret h
       | None => raise KeyError
       end;
     consume_stream request (handle_audio_data capture_handler))
    is_ClientDisconnect
    (fun _ => log INFO (ClientDisconnectedWhileStreaming capture_uuid));;
  mret {| message := "Audio received" |}.

Definition complete_audio (capture_uuid : string) : M JSONResponse :=
  log INFO (CompletingAudioCapture capture_uuid);;
  app_state ← get_app_state;
  match capture_handlers app_state !! capture_uuid with
  | None =>
      log ERROR (CaptureSessionNotFound capture_uuid);;
      raise (HTTPException 500 (Text "Capture session not found"))
  | Some capture_handler =>
      finish_capture_session capture_handler;;
      mret {| message := "Audio processed" |}
  end.

(** ** Reading the trace *)

Definition processed_segment (ev : Event) : option SegmentFile.t :=
  match ev with
  | ProcessConversationFromAudio _ segment_file _ _ => Some segment_file
  | _ => None
  end.

Definition sent_progress (ev : Event) : option ConversationProgress.t :=
  match ev with
  | SendNotification _ _ _ payload => Some payload
  | _ => None
  end.

Definition detector_call (ev : Event)
  : option (ConversationDetectionService * option bytes * string * bool) :=
  match ev with
  | DetectConversations s a f c => Some (s, a, f, c)
  | _ => None
  end.

Definition wav_append (ev : Event) : option (string * bytes * Z) :=
  match ev with
  | AppendToWavFile p b r => Some (p, b, r)
  | _ => None
  end.

Definition raw_write (ev : Event) : option (string * bytes) :=
  match ev with
  | FileWrite p b => Some (p, b)
  | _ => None
  end.

Definition error_logged (ev : Event) : option LogMsg :=
  match ev with
  | Logged ERROR m => Some m
  | _ => None
  end.

(** The events of one kind, in order. *)
Definition select {A} (f : Event -> option A) (t : list Event) : list A :=
  omap f t.

(** ** Relations between the world before and after *)

(** What a computation leaves related.

    [steps R m]: from every world, [m] ends in a world related to it by
    [R], whether it returns or raises.  For a preorder [R] this is closed
    under the control structure of the module. *)

Definition steps (R : World → World → Prop) {A} (m : M A) : Prop :=
  ∀ w, R w (snd (m w)).

(** The queue only grows, and by tasks that satisfy [P]. *)
Definition enqueues (P : ProcessAudioChunkTask → Prop) (w w' : World) : Prop :=
  ∃ new, task_queue (app_state w') = task_queue (app_state w) ++ new ∧ Forall P new.

(** The trace only grows, and by events that satisfy [P]. *)
Definition traces (P : Event → Prop) (w w' : World) : Prop :=
  ∃ evs, trace w' = trace w ++ evs ∧ Forall P evs.

(** The handler registry is left as it was. *)
Definition keeps_handlers (w w' : World) : Prop :=
  capture_handlers (app_state w') = capture_handlers (app_state w).

(** The collaborating services are left alone. *)
Definition keeps_env (w w' : World) : Prop := env w' = env w.

(** Every session registered before is still registered, with the same
    capture file and the same detection service. *)
Definition keeps_sessions (w w' : World) : Prop :=
  capture_files_by_id (app_state w) ⊆ capture_files_by_id (app_state w')
  ∧ conversation_detection_service_by_id (app_state w)
    ⊆ conversation_detection_service_by_id (app_state w').

(** The two registries of the chunk API hold the same capture ids. *)
Definition registries_agree (a : AppState) : Prop :=
  dom (capture_files_by_id a) = dom (conversation_detection_service_by_id a).

(** From agreeing registries to agreeing registries, losing no session. *)
Definition sessions_kept (w w' : World) : Prop :=
  registries_agree (app_state w) →
  registries_agree (app_state w') ∧ keeps_sessions w w'.

(** The events of the request path: log lines and writes to the backing
    file, no call to a service. *)
Definition request_event (ev : Event) : Prop :=
  match ev with
  | Logged _ _ | AppendToWavFile _ _ _ | FileWrite _ _ => True
  | _ => False
  end.

(** The character does not occur in the string. *)
Definition lacks (c : ascii) (s : string) : Prop :=
  ∀ i, String.get i s ≠ Some c.

(** The chunk registries are left as they were. *)
Definition keeps_chunk_sessions (w w' : World) : Prop :=
  capture_files_by_id (app_state w') = capture_files_by_id (app_state w)
  ∧ conversation_detection_service_by_id (app_state w')
    = conversation_detection_service_by_id (app_state w).

(** ** What the calls of a loop do to the services *)


(** run, lines 134-201: what the task does once the detector has returned
    its results. *)
Definition run_after_detection (self : ProcessAudioChunkTask)
    (detection_results : DetectionResults) : M unit :=
  let capture_file := _capture_file self in
  let format := _format self in
  let detection_service := _detection_service self in
  let segment_files := segment_files_of capture_file format detection_results in
  let convo_filepaths := map SegmentFile.filepath segment_files in
  emit (ExtractConversations detection_service (completed detection_results) convo_filepaths);;
  call (extract_conversations detection_service (completed detection_results) convo_filepaths);;
  process_completed capture_file segment_files;;
  let progress_updates := progress_updates_of capture_file detection_results in
  for_each progress_updates (notify capture_file).

End Capture.

(** ** A concrete set of collaborators

    Used to run the endpoints on explicit inputs.  Files are laid out as
    {capture_dir}/{date}/{device}/{capture_uuid}.{ext}; the detector replays a
    script of results, one per call; the conversation service fails on the
    conversations listed as failing. *)
Module Sample.

Fixpoint split_from (c : ascii) (s : string) (cur : string) : list string :=
  match s with
  | EmptyString => [cur]
  | String a s' =>
      if Ascii.eqb a c then cur :: split_from c s' ""
      else split_from c s' (cur +:+ String a "")
  end.

(** s.split(c) *)
Definition split (c : ascii) (s : string) : list string := split_from c s "".

(** One path component against one pattern component: [*] matches any
    non-empty name that does not start with a dot. *)
Definition component_matches (pat comp : string) : bool :=
  if String.eqb pat "*" then
    match comp with
    | EmptyString => false
    | String a _ => negb (Ascii.eqb a PyStr.dot)
    end
  else String.eqb pat comp.

Fixpoint components_match (pats comps : list string) : bool :=
  match pats, comps with
  | [], [] => true
  | p :: pats', c :: comps' => component_matches p c && components_match pats' comps'
  | _, _ => false
  end.

(** A stand-in for glob.glob: the regular files whose path matches, in the
    order of the map. *)
Definition glob (d : gmap string bytes) (pattern : string) : list string :=
  filter (fun p => Is_true (components_match (split PyStr.slash pattern) (split PyStr.slash p)))
         (map fst (map_to_list d)).

Definition basename (p : string) : string :=
  List.last (split PyStr.slash p) "".

Definition get_capture_uuid (filepath : string) : option string :=
  match PyStr.splitext (basename filepath) with
  | (_, EmptyString) => None
  | (stem, _) => Some stem
  end.

Definition from_filepath (filepath : option string) : option CaptureFile.t :=
  match filepath with
  | None => None
  | Some p =>
      match rev (split PyStr.slash p), get_capture_uuid p with
      | _ :: device :: date :: _, Some id =>
          Some {| CaptureFile.capture_uuid := id;
                  CaptureFile.device_type := {| value := device |};
                  CaptureFile.timestamp := date;
                  CaptureFile.filepath := p |}
      | _, _ => None
      end
  end.

Definition new_capture_file (capture_directory capture_uuid device_type timestamp
    file_extension : string) : CaptureFile.t :=
  {| CaptureFile.capture_uuid := capture_uuid;
     CaptureFile.device_type := {| value := device_type |};
     CaptureFile.timestamp := timestamp;
     CaptureFile.filepath :=
       capture_directory +:+ "/" +:+ timestamp +:+ "/" +:+ device_type +:+ "/"
       +:+ capture_uuid +:+ "." +:+ file_extension |}.

Definition create_conversation_segment (capture_file : CaptureFile.t)
    (conversation_uuid : string) (timestamp : Z) (file_extension : string)
  : SegmentFile.t :=
  {| SegmentFile.conversation_uuid := conversation_uuid;
     SegmentFile.timestamp := timestamp;
     SegmentFile.file_extension := file_extension;
     SegmentFile.filepath :=
       fst (PyStr.splitext (CaptureFile.filepath capture_file))
       +:+ "_" +:+ conversation_uuid +:+ "." +:+ file_extension |}.

(** A 44-byte header stands for the wave header of a new file. *)
Definition wav_header : bytes := repeat x00 44.

Definition append_to_wav_file (filepath : string) (sample_bytes : bytes)
    (sample_rate : Z) (d : gmap string bytes) : Exn + (Z * gmap string bytes) :=
  inr (Z.of_nat (length sample_bytes),
       <[filepath := default wav_header (d !! filepath) ++ sample_bytes]> d).

Record Env := { script : list DetectionResults }.

(** The conversations the conversation service cannot process. *)
Definition failing : list string := [ "c2" ].

Definition no_results : DetectionResults := {| completed := []; in_progress := None |}.

Definition detect_conversations (service : ConversationDetectionService)
    (audio_data : option bytes) (format : string) (capture_finished : bool)
    (e : Env) : (Exn + DetectionResults) * Env :=
  match script e with
  | [] => (inr no_results, e)
  | r :: rest => (inr r, {| script := rest |})
  end.

Definition extract_conversations (service : ConversationDetectionService)
    (conversations : list Conversation) (conversation_filepaths : list string)
    (e : Env) : (Exn + unit) * Env := (inr tt, e).

Definition process_conversation_from_audio (capture_file : CaptureFile.t)
    (segment_file : SegmentFile.t) (voice_sample_filepath speaker_name : string)
    (e : Env) : (Exn + unit) * Env :=
  if bool_decide (SegmentFile.conversation_uuid segment_file ∈ failing)
  then (inl (CollaboratorError "transcription failed"), e)
  else (inr tt, e).

Definition send_notification (title body type : string)
    (payload : ConversationProgress.t) (e : Env) : (Exn + unit) * Env := (inr tt, e).

#[export] Instance collaborators : Collaborators :=
  Build_Collaborators Env glob get_capture_uuid from_filepath new_capture_file
    create_conversation_segment append_to_wav_file detect_conversations
    extract_conversations process_conversation_from_audio send_notification
    (fun _ => "20240101").

Definition the_config : Config :=
  {| captures := {| capture_dir := "captures" |};
     user := {| voice_sample_filepath := "voice.wav"; name := "Bob" |} |}.

Definition empty_app_state : AppState :=
  {| config := the_config;
     capture_handlers := ∅;
     capture_files_by_id := ∅;
     conversation_detection_service_by_id := ∅;
     task_queue := [] |}.

Definition quiet : Env := {| script := [] |}.

Definition world (a : AppState) (d : gmap string bytes) (e : Env) : World :=
  {| app_state := a; disk := d; env := e; trace := [] |}.

(** Two recordings of capture "abc", made on different days. *)
Definition two_recordings : gmap string bytes :=
  <["captures/20240101/ios/abc.wav" := [x01]]>
    (<["captures/20240102/ios/abc.wav" := [x02]]> ∅).

Definition one_recording : gmap string bytes :=
  <["captures/20240101/ios/abc.wav" := [x01]]> ∅.

End Sample.


(** ** Explicit inputs *)

Module Scenario.

Import Sample.

Definition abc_first : string := "captures/20240101/ios/abc.wav".
Definition abc_second : string := "captures/20240102/ios/abc.wav".

(** After a restart: the recording is on disk, the registries are empty. *)
Definition after_restart : World := world empty_app_state one_recording quiet.

Definition abc_file : CaptureFile.t :=
  new_capture_file "captures" "abc" "ios" "20240101" "wav".

Definition abc_service : ConversationDetectionService :=
  {| capture_filepath := CaptureFile.filepath abc_file;
     capture_timestamp := CaptureFile.timestamp abc_file |}.

(** A chunked session for "abc" that already holds data. *)
Definition abc_session : AppState :=
  {| config := the_config;
     capture_handlers := ∅;
     capture_files_by_id := {[ "abc" := abc_file ]};
     conversation_detection_service_by_id := {[ "abc" := abc_service ]};
     task_queue := [] |}.

Definition abc_uploading : World := world abc_session one_recording quiet.

Definition pcm_chunk : UploadFile :=
  {| filename := "chunk.pcm"; file_content := [x10; x20] |}.

Definition mp3_chunk : UploadFile :=
  {| filename := "chunk.mp3"; file_content := [x10; x20] |}.

Definition convo (id : string) (from to : Z) : Conversation :=
  {| uuid := id; endpoints := {| start := from; end_ := to |} |}.

(** A detector about to report three completed conversations and one in
    progress, and a conversation service that fails on the second. *)
Definition three_completed : DetectionResults :=
  {| completed := [ convo "c1" 0 10; convo "c2" 20 30; convo "c3" 40 50 ];
     in_progress := Some (convo "c4" 60 70) |}.

Definition second_fails : Env := {| script := [ three_completed ] |}.

Definition abc_task : ProcessAudioChunkTask :=
  {| _capture_file := abc_file; _detection_service := abc_service;
     _audio_data := Some [x10; x20]; _format := "wav" |}.

Definition abc_processing : World := world abc_session one_recording second_fails.

(** A streaming session for "abc". *)
Definition abc_handler : StreamingCaptureHandler :=
  new_StreamingCaptureHandler empty_app_state "ios" "abc" "wav" "20240101".

Definition abc_streaming : World :=
  world {| config := the_config;
           capture_handlers := {[ "abc" := abc_handler ]};
           capture_files_by_id := ∅;
           conversation_detection_service_by_id := ∅;
           task_queue := [] |}
        one_recording quiet.

Definition dropped_stream : Request :=
  {| stream := [ [x01; x02]; [x03] ]; disconnects := true |}.

End Scenario.

(** ** Collaborators that fail

    The files are handled as in [Sample]; the services can be switched off
    one by one, the conversation service never fails, and the disk is full
    for append_to_wav_file. *)
Module Faulty.

Record Env := {
  detector_down : bool;
  extractor_down : bool;
  notifier_down : bool
}.

Definition results : DetectionResults :=
  {| completed := [ Scenario.convo "c1" 0 10; Scenario.convo "c2" 20 30 ];
     in_progress := Some (Scenario.convo "c3" 40 50) |}.

Definition append_to_wav_file (filepath : string) (sample_bytes : bytes)
    (sample_rate : Z) (d : gmap string bytes) : Exn + (Z * gmap string bytes) :=
  inl (CollaboratorError "disk full").

Definition detect_conversations (service : ConversationDetectionService)
    (audio_data : option bytes) (format : string) (capture_finished : bool)
    (e : Env) : (Exn + DetectionResults) * Env :=
  if detector_down e then (inl (CollaboratorError "detector down"), e)
  else (inr results, e).

Definition extract_conversations (service : ConversationDetectionService)
    (conversations : list Conversation) (conversation_filepaths : list string)
    (e : Env) : (Exn + unit) * Env :=
  if extractor_down e then (inl (CollaboratorError "extractor down"), e)
  else (inr tt, e).

Definition process_conversation_from_audio (capture_file : CaptureFile.t)
    (segment_file : SegmentFile.t) (voice_sample_filepath speaker_name : string)
    (e : Env) : (Exn + unit) * Env := (inr tt, e).

Definition send_notification (title body type : string)
    (payload : ConversationProgress.t) (e : Env) : (Exn + unit) * Env :=
  if notifier_down e then (inl (CollaboratorError "notifier down"), e)
  else (inr tt, e).

Definition collaborators : Collaborators :=
  Build_Collaborators Env Sample.glob Sample.get_capture_uuid Sample.from_filepath
    Sample.new_capture_file Sample.create_conversation_segment append_to_wav_file
    detect_conversations extract_conversations process_conversation_from_audio
    send_notification (fun _ => "20240101").


Definition no_detector : Env :=
  {| detector_down := true; extractor_down := false; notifier_down := false |}.

Definition no_extractor : Env :=
  {| detector_down := false; extractor_down := true; notifier_down := false |}.


Definition world (a : AppState) (d : gmap string bytes) (e : Env)
  : @World collaborators :=
  @Build_World collaborators a d e [].

End Faulty.

(** ** Further explicit inputs *)

Module Edge.

Import Sample Scenario.

Definition wav_chunk : UploadFile :=
  {| filename := "chunk.wav"; file_content := [x10; x20] |}.


Definition bare_chunk : UploadFile :=
  {| filename := "chunk"; file_content := [x10; x20] |}.

(** The session of "abc" is in memory, its file is gone. *)
Definition abc_file_missing : World := world abc_session ∅ quiet.

(** The recording of "abc" is an mp3 file. *)
Definition abc_mp3 : string := "captures/20240101/ios/abc.mp3".

Definition abc_mp3_file : CaptureFile.t :=
  new_capture_file "captures" "abc" "ios" "20240101" "mp3".

Definition abc_as_mp3 : World :=
  world abc_session (<[abc_mp3 := [x01]]> ∅) quiet.

(** The capture file of "abc" is registered, its detection service is not. *)
Definition abc_service_lost : World :=
  world {| config := the_config;
           capture_handlers := ∅;
           capture_files_by_id := {[ "abc" := abc_file ]};
           conversation_detection_service_by_id := ∅;
           task_queue := [] |}
        one_recording quiet.

(** The capture "abc" is registered with both transports: a streaming
    handler and a chunked session, and its recording is on disk. *)
Definition abc_both : World :=
  world {| config := the_config;
           capture_handlers := {[ "abc" := abc_handler ]};
           capture_files_by_id := {[ "abc" := abc_file ]};
           conversation_detection_service_by_id := {[ "abc" := abc_service ]};
           task_queue := [] |}
        one_recording quiet.



End Edge.

(** ** Properties *)

Section Properties.

Context `{C : Collaborators}.

(** *** Stepping through the monad *)

Ltac munfold :=
  unfold try_except, Exception, lift, raise, log, emit, call,
    get_app_state, get_disk, set_disk, get_env, modify_app_state,
    task_queue_put, set_capture_handlers, set_capture_files_by_id,
    set_conversation_detection_service_by_id,
    mbind, M_bind, mret, M_ret in *;
  simpl in *.

Lemma bind_inr {A B} (m : M A) (k : A → M B) (w w1 : World) (a : A) :
  m w = (inr a, w1) → (m ≫= k) w = k a w1.
Proof. intros E. unfold mbind, M_bind. by rewrite E. Qed.

Lemma bind_inl {A B} (m : M A) (k : A → M B) (w w1 : World) (e : Exn) :
  m w = (inl e, w1) → (m ≫= k) w = (inl e, w1).
Proof. intros E. unfold mbind, M_bind. by rewrite E. Qed.

Lemma call_eq {A} (f : Env → (Exn + A) * Env) (w : World) (r : Exn + A) (e' : Env) :
  f (env w) = (r, e') →
  call f w = (r, {| app_state := app_state w; disk := disk w; env := e'; trace := trace w |}).
Proof. intros E. unfold call. by rewrite E. Qed.

(** *** What a computation leaves related *)

Section Steps.

Context (R : World → World → Prop) `{!PreOrder R}.

Lemma steps_mret {A} (a : A) : steps R (mret a).
Proof. intros w. simpl. reflexivity. Qed.

Lemma steps_raise {A} (e : Exn) : steps R (raise (A := A) e).
Proof. intros w. simpl. reflexivity. Qed.

Lemma steps_lift {A} (r : Exn + A) : steps R (lift r).
Proof. destruct r; [apply steps_raise | apply steps_mret]. Qed.

Lemma steps_get_app_state : steps R get_app_state.
Proof. intros w. simpl. reflexivity. Qed.

Lemma steps_get_disk : steps R get_disk.
Proof. intros w. simpl. reflexivity. Qed.

Lemma steps_get_env : steps R get_env.
Proof. intros w. simpl. reflexivity. Qed.

Lemma steps_bind {A B} (m : M A) (k : A → M B) :
  steps R m → (∀ a, steps R (k a)) → steps R (m ≫= k).
Proof.
  intros Hm Hk w. specialize (Hm w).
  unfold mbind, M_bind. destruct (m w) as [[e|a] w1]; simpl in *; [done|].
  etransitivity; [exact Hm | apply Hk].
Qed.

Lemma steps_lift_bind {A B} (r : Exn + A) (k : A → M B) :
  (∀ a, r = inr a → steps R (k a)) → steps R (lift r ≫= k).
Proof.
  intros Hk. destruct r as [e|a].
  - intros w. simpl. reflexivity.
  - intros w. apply (Hk a eq_refl).
Qed.

Lemma steps_try_except {A} (body : M A) (handles : Exn → bool) (handler : Exn → M A) :
  steps R body → (∀ e, steps R (handler e)) → steps R (try_except body handles handler).
Proof.
  intros Hb Hh w. specialize (Hb w).
  unfold try_except. destruct (body w) as [[e|a] w1]; simpl in *; [|done].
  destruct (handles e); [|done].
  etransitivity; [exact Hb | apply Hh].
Qed.

Lemma steps_for_each {A} (xs : list A) (body : A → M unit) :
  (∀ x, steps R (body x)) → steps R (for_each xs body).
Proof.
  intros Hb. induction xs as [|x xs IH]; simpl.
  - apply steps_mret.
  - apply steps_bind; [apply Hb | intros _; apply IH].
Qed.

End Steps.

(** Structural part of a [steps] proof; what is left are the primitive
    effects. *)
Ltac steps_structure :=
  repeat first
    [ apply steps_mret; [typeclasses eauto]
    | apply steps_raise; [typeclasses eauto]
    | apply steps_lift; [typeclasses eauto]
    | apply steps_get_app_state; [typeclasses eauto]
    | apply steps_get_disk; [typeclasses eauto]
    | apply steps_get_env; [typeclasses eauto]
    | apply steps_lift_bind; [typeclasses eauto | intros ? ?]
    | apply steps_bind; [typeclasses eauto | | intros ?]
    | apply steps_try_except; [typeclasses eauto | | intros ?]
    | apply steps_for_each; [typeclasses eauto | intros ?]
    | match goal with
      | |- steps _ (match ?x with _ => _ end) => destruct x
      | |- steps _ (if ?b then _ else _) => destruct b
      | |- steps _ (let '(_, _) := ?x in _) => destruct x
      end ].

#[local] Instance enqueues_preorder P : PreOrder (enqueues P).
Proof.
  split.
  - intros w. exists []. by rewrite app_nil_r.
  - intros w1 w2 w3 (n1 & E1 & F1) (n2 & E2 & F2). exists (n1 ++ n2).
    rewrite E2, E1, app_assoc. split; [done|]. by apply Forall_app.
Qed.

Lemma enqueues_same_queue P (w w' : World) :
  task_queue (app_state w') = task_queue (app_state w) → enqueues P w w'.
Proof. intros E. exists []. by rewrite app_nil_r. Qed.

Lemma steps_enqueues_put P (task : ProcessAudioChunkTask) :
  P task → steps (enqueues P) (task_queue_put task).
Proof. intros HP w. exists [task]. simpl. split; [done|]. by constructor. Qed.

Ltac same_queue := intros ?; apply enqueues_same_queue; done.

#[local] Instance traces_preorder P : PreOrder (traces P).
Proof.
  split.
  - intros w. exists []. by rewrite app_nil_r.
  - intros w1 w2 w3 (n1 & E1 & F1) (n2 & E2 & F2). exists (n1 ++ n2).
    rewrite E2, E1, app_assoc. split; [done|]. by apply Forall_app.
Qed.

Lemma traces_same_trace P (w w' : World) : trace w' = trace w → traces P w w'.
Proof. intros E. exists []. by rewrite app_nil_r. Qed.

Lemma steps_traces_emit (P : Event → Prop) (ev : Event) :
  P ev → steps (traces P) (emit ev).
Proof. intros HP w. exists [ev]. simpl. split; [done|]. by constructor. Qed.

Lemma steps_traces_call (P : Event → Prop) {A} (f : Env → (Exn + A) * Env) :
  steps (traces P) (call f).
Proof.
  intros w. apply traces_same_trace. unfold call. by destruct (f (env w)).
Qed.

Ltac same_trace := intros ?; apply traces_same_trace; done.

(** Events of one kind among those a silent stretch adds: none. *)
Lemma select_traces {A} (f : Event → option A) (w w' : World) :
  traces (fun ev => f ev = None) w w' → select f (trace w') = select f (trace w).
Proof.
  intros (evs & -> & Hevs). unfold select. rewrite omap_app.
  assert (omap f evs = []) as ->; [|by rewrite app_nil_r].
  induction Hevs as [|ev evs Hev _ IH]; [done|]. simpl. by rewrite Hev.
Qed.

(** An event, then a stretch that is silent for [f]. *)
Lemma select_emit_then {A B} (f : Event → option A) (ev : Event) (m : M B) (w : World) :
  steps (traces (fun ev => f ev = None)) m →
  select f (trace (snd ((emit ev;; m) w)))
  = select f (trace w) ++ from_option (fun a => [a]) [] (f ev).
Proof.
  intros Hm. unfold mbind, M_bind, emit. simpl.
  rewrite (select_traces f _ _ (Hm _)). simpl.
  unfold select. rewrite omap_app. simpl. by destruct (f ev).
Qed.

(** The same inside a try whose handler is silent for [f] too. *)
Lemma select_try_emit_then {A B D} (f : Event → option A) (ev : Event)
    (m : M B) (k : B → M D) (handles : Exn → bool) (handler : Exn → M D) (w : World) :
  steps (traces (fun ev => f ev = None)) m →
  (∀ b, steps (traces (fun ev => f ev = None)) (k b)) →
  (∀ e, steps (traces (fun ev => f ev = None)) (handler e)) →
  select f (trace (snd (try_except ((emit ev;; m) ≫= k) handles handler w)))
  = select f (trace w) ++ from_option (fun a => [a]) [] (f ev).
Proof.
  intros Hm Hk Hh.
  change (try_except ((emit ev;; m) ≫= k) handles handler w)
    with (try_except (m ≫= k) handles handler
            {| app_state := app_state w; disk := disk w; env := env w;
               trace := trace w ++ [ev] |}).
  rewrite (select_traces f _ _
             (steps_try_except _ _ handles _ (steps_bind _ _ _ Hm Hk) Hh _)).
  simpl. unfold select. rewrite omap_app. simpl. by destruct (f ev).
Qed.

(** *** The supported formats *)

Lemma supported_upload_file_extensions_spec (ext : string) :
  ext ∈ supported_upload_file_extensions ↔ ext = "pcm" ∨ ext = "wav" ∨ ext = "aac".
Proof.
  unfold supported_upload_file_extensions.
  rewrite elem_of_list_to_set, !elem_of_cons, elem_of_nil. tauto.
Qed.

Lemma pcm_as_wav_format (ext : string) :
  ext ∈ supported_upload_file_extensions →
  fst (pcm_as_wav ext) = "wav" ∨ fst (pcm_as_wav ext) = "aac".
Proof.
  intros Hs%supported_upload_file_extensions_spec. unfold pcm_as_wav.
  destruct (decide (ext = "pcm")); simpl; [by left|].
  destruct Hs as [?|[?|?]]; [done|by left|by right].
Qed.

Lemma new_ProcessAudioChunkTask_ok (capture_file : CaptureFile.t)
    (detection_service : ConversationDetectionService) (format : string)
    (audio_data : option bytes) :
  format = "wav" ∨ format = "aac" →
  new_ProcessAudioChunkTask capture_file detection_service format audio_data
  = inr {| _capture_file := capture_file; _detection_service := detection_service;
           _audio_data := audio_data; _format := format |}.
Proof. intros Hf. unfold new_ProcessAudioChunkTask. by rewrite decide_True. Qed.

(** C5: an upload whose extension is outside the supported set is answered
    with a normal response that carries the failure message, and nothing
    else happens: no registry entry, no file, no task, not even a log line. *)
Theorem upload_chunk_unsupported_extension
    (file : UploadFile) (capture_uuid timestamp device_type : string) (w : World) :
  extension_of (filename file) ∉ supported_upload_file_extensions →
  upload_chunk file capture_uuid timestamp device_type w
  = (inr {| message := "Failed to process because file extension is unsupported: "
                       +:+ extension_of (filename file) |},
     w).
Proof.
  intros Hext. unfold upload_chunk, try_except.
  by rewrite decide_False.
Qed.

Lemma new_ProcessAudioChunkTask_inv (capture_file : CaptureFile.t)
    (detection_service : ConversationDetectionService) (format : string)
    (audio_data : option bytes) (task : ProcessAudioChunkTask) :
  new_ProcessAudioChunkTask capture_file detection_service format audio_data = inr task →
  task = {| _capture_file := capture_file; _detection_service := detection_service;
            _audio_data := audio_data; _format := format |}
  ∧ (format = "wav" ∨ format = "aac").
Proof.
  unfold new_ProcessAudioChunkTask. case_decide; [|done].
  intros [= <-]. done.
Qed.

(** Submitting a freshly constructed task. *)
Lemma steps_enqueues_submit P (capture_file : CaptureFile.t)
    (detection_service : ConversationDetectionService) (format : string)
    (audio_data : option bytes) {A} (k : M A) :
  P {| _capture_file := capture_file; _detection_service := detection_service;
       _audio_data := audio_data; _format := format |} →
  steps (enqueues P) k →
  steps (enqueues P)
    (task ← lift (new_ProcessAudioChunkTask capture_file detection_service format audio_data);
     task_queue_put task;; k).
Proof.
  intros HP Hk.
  apply steps_lift_bind; [typeclasses eauto|intros task [-> _]%new_ProcessAudioChunkTask_inv].
  apply steps_bind; [typeclasses eauto|by apply steps_enqueues_put|done].
Qed.

Lemma steps_enqueues_session P (capture_uuid timestamp device_type file_extension : string) :
  steps (enqueues P)
    (lookup_or_create_session capture_uuid timestamp device_type file_extension).
Proof. unfold lookup_or_create_session. steps_structure; same_queue. Qed.

Lemma steps_enqueues_append_bytes P (filepath : string) (content : bytes) :
  steps (enqueues P) (append_bytes filepath content).
Proof. unfold append_bytes. steps_structure; same_queue. Qed.

Lemma steps_enqueues_append_to_wav_file P (filepath : string) (content : bytes) (rate : Z) :
  steps (enqueues P) (call_append_to_wav_file filepath content rate).
Proof. unfold call_append_to_wav_file. steps_structure; same_queue. Qed.

(** Every task that [upload_chunk] enqueues carries the uploaded bytes and
    the normalised format. *)
Lemma steps_enqueues_upload_chunk P
    (file : UploadFile) (capture_uuid timestamp device_type : string) :
  (∀ capture_file detection_service,
     P {| _capture_file := capture_file; _detection_service := detection_service;
          _audio_data := Some (file_content file);
          _format := fst (pcm_as_wav (extension_of (filename file))) |}) →
  steps (enqueues P) (upload_chunk file capture_uuid timestamp device_type).
Proof.
  intros HP. unfold upload_chunk.
  apply steps_try_except; [typeclasses eauto| |intros e; steps_structure; same_queue].
  case_decide; [|apply steps_mret; typeclasses eauto].
  destruct (pcm_as_wav (extension_of (filename file))) as [ext hdr].
  simpl in *.
  apply steps_bind; [typeclasses eauto|apply steps_enqueues_session|intros [cf ds]].
  apply steps_bind; [typeclasses eauto| |intros n].
  { destruct hdr;
      [apply steps_enqueues_append_to_wav_file | apply steps_enqueues_append_bytes]. }
  apply steps_bind; [typeclasses eauto|same_queue|intros _].
  apply steps_enqueues_submit; [done|]. apply steps_mret; typeclasses eauto.
Qed.

(** Every task that [process_capture] enqueues is without bytes. *)
Lemma steps_enqueues_process_capture P (capture_uuid : string) :
  (∀ capture_file detection_service format,
     P {| _capture_file := capture_file; _detection_service := detection_service;
          _audio_data := None; _format := format |}) →
  steps (enqueues P) (process_capture capture_uuid).
Proof.
  intros HP. unfold process_capture.
  apply steps_try_except; [typeclasses eauto| |intros e; steps_structure; same_queue].
  apply steps_bind; [typeclasses eauto|same_queue|intros a].
  apply steps_bind; [typeclasses eauto|same_queue|intros d].
  apply steps_lift_bind; [typeclasses eauto|intros p _].
  apply steps_bind; [typeclasses eauto|same_queue|intros _].
  destruct (from_filepath p) as [cf|]; [|steps_structure; same_queue].
  destruct (conversation_detection_service_by_id a !! capture_uuid) as [ds|];
    [|steps_structure; same_queue].
  apply steps_enqueues_submit; [done|].
  steps_structure; same_queue.
Qed.

(** C10: on the chunk-upload path the format handed to the task constructor
    is "wav" or "aac", pcm having been rewritten, so its assertion holds:
    for an upload with a supported extension whose session is found or
    created and whose bytes are written, upload_chunk does not fail; it
    queues the task, which carries that format, and answers "Audio
    processed". *)
Theorem upload_chunk_task_format
    (file : UploadFile) (capture_uuid timestamp device_type : string) (w w1 : World)
    (capture_file : CaptureFile.t) (detection_service : ConversationDetectionService)
    (bytes_written : Z) (d' : gmap string bytes) :
  let file_extension := extension_of (filename file) in
  let format := if decide (file_extension = "pcm") then "wav" else file_extension in
  let filepath := CaptureFile.filepath capture_file in
  file_extension ∈ supported_upload_file_extensions →
  lookup_or_create_session capture_uuid timestamp device_type format w
  = (inr (capture_file, detection_service), w1) →
  (if decide (file_extension = "pcm")
   then append_to_wav_file filepath (file_content file) 16000 (disk w1)
   else inr (Z.of_nat (length (file_content file)),
             <[filepath := default [] (disk w1 !! filepath) ++ file_content file]>
               (disk w1)))
  = inr (bytes_written, d') →
  (format = "wav" ∨ format = "aac")
  ∧ upload_chunk file capture_uuid timestamp device_type w
    = (inr {| message := "Audio processed" |},
       {| app_state :=
            {| config := config (app_state w1);
               capture_handlers := capture_handlers (app_state w1);
               capture_files_by_id := capture_files_by_id (app_state w1);
               conversation_detection_service_by_id :=
                 conversation_detection_service_by_id (app_state w1);
               task_queue :=
                 task_queue (app_state w1)
                 ++ [ {| _capture_file := capture_file;
                         _detection_service := detection_service;
                         _audio_data := Some (file_content file);
                         _format := format |} ] |};
          disk := d'; env := env w1;
          trace := trace w1
                   ++ [ (if decide (file_extension = "pcm")
                         then AppendToWavFile filepath (file_content file) 16000
                         else FileWrite filepath (file_content file));
                        Logged INFO (BytesAppended filepath bytes_written) ] |}).
Proof.
  intros file_extension format filepath Hext Hsession Hwrite.
  assert (Hformat : format = "wav" ∨ format = "aac").
  { subst format. apply supported_upload_file_extensions_spec in Hext.
    case_decide; [by left|]. destruct Hext as [?|[?|?]]; [done|by left|by right]. }
  split; [done|].
  unfold upload_chunk. fold file_extension. rewrite decide_True by done.
  unfold pcm_as_wav. subst format.
  destruct (decide (file_extension = "pcm")) as [Hpcm|Hpcm].
  - unfold try_except. erewrite bind_inr by exact Hsession.
    unfold call_append_to_wav_file. fold filepath.
    rewrite new_ProcessAudioChunkTask_ok by done.
    munfold. rewrite Hwrite. simpl. by rewrite <- !app_assoc.
  - injection Hwrite as <- <-.
    unfold try_except. erewrite bind_inr by exact Hsession.
    unfold append_bytes. fold filepath.
    rewrite new_ProcessAudioChunkTask_ok by done.
    munfold. by rewrite <- !app_assoc.
Qed.

(** A session that is found or created is found or created silently. *)
Lemma lookup_or_create_session_trace
    (capture_uuid timestamp device_type file_extension : string) (w w1 : World)
    (session : CaptureFile.t * ConversationDetectionService) :
  lookup_or_create_session capture_uuid timestamp device_type file_extension w
  = (inr session, w1) →
  trace w1 = trace w.
Proof.
  unfold lookup_or_create_session. munfold.
  destruct (capture_files_by_id (app_state w) !! capture_uuid).
  - destruct (conversation_detection_service_by_id (app_state w) !! capture_uuid);
      [by intros [= _ <-]|done].
  - by intros [= _ <-].
Qed.

(** C4 (as amended): for a pcm upload whose session is found or created, the
    chunk is stored as wav and handed to append_to_wav_file, with the header
    flag set and at 16000 samples per second, on every upload: the flag
    depends on the extension of the upload alone, not on what the session
    already holds.  What append_to_wav_file returns is the new disk, one wav
    task carrying the bytes is queued and the answer is "Audio processed";
    when it raises, the answer is a 500 carrying its exception and nothing
    is queued.  No raw write is made either way. *)
Theorem upload_chunk_pcm_writes_header_every_time
    (file : UploadFile) (capture_uuid timestamp device_type : string) (w w1 : World)
    (capture_file : CaptureFile.t) (detection_service : ConversationDetectionService) :
  extension_of (filename file) = "pcm" →
  lookup_or_create_session capture_uuid timestamp device_type "wav" w
  = (inr (capture_file, detection_service), w1) →
  let w' := snd (upload_chunk file capture_uuid timestamp device_type w) in
  let appended :=
    AppendToWavFile (CaptureFile.filepath capture_file) (file_content file) 16000 in
  pcm_as_wav (extension_of (filename file)) = ("wav", true)
  ∧ upload_chunk file capture_uuid timestamp device_type w
    = match append_to_wav_file (CaptureFile.filepath capture_file) (file_content file)
              16000 (disk w1) with
      | inr (bytes_written, d') =>
          (inr {| message := "Audio processed" |},
           {| app_state :=
                {| config := config (app_state w1);
                   capture_handlers := capture_handlers (app_state w1);
                   capture_files_by_id := capture_files_by_id (app_state w1);
                   conversation_detection_service_by_id :=
                     conversation_detection_service_by_id (app_state w1);
                   task_queue :=
                     task_queue (app_state w1)
                     ++ [ {| _capture_file := capture_file;
                             _detection_service := detection_service;
                             _audio_data := Some (file_content file);
                             _format := "wav" |} ] |};
              disk := d'; env := env w1;
              trace := trace w1
                       ++ [ appended;
                            Logged INFO (BytesAppended (CaptureFile.filepath capture_file)
                                           bytes_written) ] |})
      | inl e =>
          (inl (HTTPException 500 (StrOf e)),
           {| app_state := app_state w1; disk := disk w1; env := env w1;
              trace := trace w1 ++ [ appended; Logged ERROR (FailedToUploadChunk e) ] |})
      end
  ∧ select wav_append (trace w')
    = select wav_append (trace w)
      ++ [ (CaptureFile.filepath capture_file, file_content file, 16000) ]
  ∧ select raw_write (trace w') = select raw_write (trace w).
Proof.
  intros Hext Hsession w' appended. subst w' appended.
  pose proof (lookup_or_create_session_trace _ _ _ _ _ _ _ Hsession) as Htrace.
  split; [by rewrite Hext|].
  unfold upload_chunk. rewrite Hext.
  rewrite decide_True by (by apply supported_upload_file_extensions_spec; left).
  change (pcm_as_wav "pcm") with ("wav", true). cbv beta iota zeta.
  set (ev := AppendToWavFile (CaptureFile.filepath capture_file) (file_content file) 16000).
  match goal with
  | |- context [try_except (_ ≫= ?k) ?h ?hd w] =>
      assert (try_except (lookup_or_create_session capture_uuid timestamp device_type "wav"
                            ≫= k) h hd w
              = try_except (k (capture_file, detection_service)) h hd w1) as ->
  end.
  { unfold try_except. by erewrite bind_inr by exact Hsession. }
  cbv beta iota zeta. unfold call_append_to_wav_file. fold ev.
  split; [|split].
  - unfold try_except.
    destruct (append_to_wav_file (CaptureFile.filepath capture_file) (file_content file)
                16000 (disk w1)) as [e|[n d']] eqn:Happend.
    + munfold. rewrite Happend. simpl. by rewrite <- !app_assoc.
    + rewrite new_ProcessAudioChunkTask_ok by (by left).
      munfold. rewrite Happend. simpl. by rewrite <- !app_assoc.
  - rewrite select_try_emit_then; [by rewrite Htrace|..];
      intros; steps_structure; first [by apply steps_traces_emit | same_trace].
  - rewrite select_try_emit_then; [by rewrite Htrace, app_nil_r|..];
      intros; steps_structure; first [by apply steps_traces_emit | same_trace].
Qed.

(** *** The task *)

Lemma steps_traces_process_segment (P : Event → Prop) capture_file segment_file :
  (∀ c s v n, P (ProcessConversationFromAudio c s v n)) →
  steps (traces P) (process_segment capture_file segment_file).
Proof.
  intros HP. unfold process_segment.
  steps_structure; [by apply steps_traces_emit|apply steps_traces_call].
Qed.

Lemma steps_traces_notify (P : Event → Prop) capture_file progress :
  (∀ t b ty p, P (SendNotification t b ty p)) →
  steps (traces P) (notify capture_file progress).
Proof.
  intros HP. unfold notify.
  steps_structure; [by apply steps_traces_emit|apply steps_traces_call].
Qed.

(** What process_capture queues when it succeeds: one task, without bytes. *)
Lemma process_capture_success_queues_final_task
    (capture_uuid : string) (w : World) (response : JSONResponse) :
  fst (process_capture capture_uuid w) = inr response →
  ∃ task,
    task_queue (app_state (snd (process_capture capture_uuid w)))
    = task_queue (app_state w) ++ [task]
    ∧ _audio_data task = None.
Proof.
  unfold process_capture. munfold.
  destruct (find_audio_filepath _ _ _) as [e0|fp]; simpl; [done|].
  destruct (from_filepath fp) as [cf|]; simpl; [|done].
  destruct (conversation_detection_service_by_id (app_state w) !! capture_uuid) as [ds|];
    simpl; [|done].
  destruct (new_ProcessAudioChunkTask _ _ _ _) as [e0|task] eqn:Ht; simpl; [done|].
  apply new_ProcessAudioChunkTask_inv in Ht as [-> _].
  intros _. eexists. by split.
Qed.

(** C6: the first thing the task does is to call the detector, with the
    task's bytes and format and with capture_finished true exactly when the
    bytes are absent; an exception of the detector ends the task, and
    otherwise the task goes on from the detector's results and the state the
    call left the services in.  The final run is the same task record with
    no bytes: when process_capture succeeds it has queued exactly one task,
    and that task has no bytes. *)
Theorem run_detects_with_capture_finished_iff_no_audio
    (self : ProcessAudioChunkTask) (w : World)
    (capture_uuid : string) (w0 : World) (response : JSONResponse) :
  let capture_finished := match _audio_data self with None => true | Some _ => false end in
  let called (e1 : Env) :=
    {| app_state := app_state w; disk := disk w; env := e1;
       trace := trace w
                ++ [ DetectConversations (_detection_service self) (_audio_data self)
                       (_format self) capture_finished ] |} in
  run self w
  = match detect_conversations (_detection_service self) (_audio_data self) (_format self)
            capture_finished (env w) with
    | (inl e, e1) => (inl e, called e1)
    | (inr detection_results, e1) => run_after_detection self detection_results (called e1)
    end
  ∧ select detector_call (trace (snd (run self w)))
    = select detector_call (trace w)
      ++ [ (_detection_service self, _audio_data self, _format self, capture_finished) ]
  ∧ (fst (process_capture capture_uuid w0) = inr response →
     ∃ task,
       task_queue (app_state (snd (process_capture capture_uuid w0)))
       = task_queue (app_state w0) ++ [task]
       ∧ _audio_data task = None).
Proof.
  intros capture_finished called. subst capture_finished called.
  split; [|split].
  - unfold run. erewrite bind_inr by reflexivity.
    change (match _audio_data self with None => true | Some _ => false end)
      with (is_None (_audio_data self)).
    destruct (detect_conversations (_detection_service self) (_audio_data self)
                (_format self) (is_None (_audio_data self)) (env w))
      as [[e|detection_results] e1] eqn:Hdetect.
    + erewrite bind_inl; [reflexivity|]. by erewrite call_eq by exact Hdetect.
    + erewrite bind_inr; [reflexivity|]. by erewrite call_eq by exact Hdetect.
  - unfold run. rewrite select_emit_then; [done|].
    steps_structure;
      try (apply steps_traces_call);
      try (by apply steps_traces_emit);
      try (by apply steps_traces_process_segment);
      try (by apply steps_traces_notify).
  - apply process_capture_success_queues_final_task.
Qed.

(** The processing stage never lets an exception out. *)
Lemma process_completed_returns capture_file segment_files (w : World) :
  fst (process_completed capture_file segment_files w) = inr tt.
Proof.
  unfold process_completed, try_except.
  by destruct (for_each segment_files (process_segment capture_file) w) as [[e|[]] w1].
Qed.

Lemma steps_traces_process_completed (P : Event → Prop) capture_file segment_files :
  (∀ c s v n, P (ProcessConversationFromAudio c s v n)) →
  (∀ e, P (Logged ERROR (ErrorProcessingConversation e))) →
  steps (traces P) (process_completed capture_file segment_files).
Proof.
  intros HP HL. unfold process_completed.
  steps_structure; first [by apply steps_traces_emit | apply steps_traces_call].
Qed.



(** The loop over the segment files stops at the first segment the
    conversation service fails on. *)
Lemma for_each_process_segment_failure capture_file
    (before : list SegmentFile.t) (bad : SegmentFile.t) (after : list SegmentFile.t)
    (w : World) :
  (∀ s v n e, s ∈ before →
     fst (process_conversation_from_audio capture_file s v n e) = inr tt) →
  (∀ v n e, ∃ x, fst (process_conversation_from_audio capture_file bad v n e) = inl x) →
  ∃ x w',
    for_each (before ++ bad :: after) (process_segment capture_file) w = (inl x, w')
    ∧ select processed_segment (trace w')
      = select processed_segment (trace w) ++ before ++ [bad].
Proof.
  intros Hgood Hbad. revert w.
  induction before as [|s before IH]; intros w; simpl.
  - destruct (Hbad (voice_sample_filepath (user (config (app_state w))))
                (name (user (config (app_state w)))) (env w)) as [x Hx].
    destruct (process_conversation_from_audio capture_file bad
                (voice_sample_filepath (user (config (app_state w))))
                (name (user (config (app_state w)))) (env w)) as [r e'] eqn:E.
    simpl in Hx. subst r. exists x. eexists. split.
    + apply bind_inl. unfold process_segment.
      erewrite bind_inr by reflexivity.
      erewrite bind_inr by reflexivity.
      by erewrite call_eq by exact E.
    + simpl. unfold select. by rewrite omap_app.
  - pose proof (Hgood s (voice_sample_filepath (user (config (app_state w))))
                  (name (user (config (app_state w)))) (env w)
                  (list_elem_of_here _ _)) as Hs.
    destruct (process_conversation_from_audio capture_file s
                (voice_sample_filepath (user (config (app_state w))))
                (name (user (config (app_state w)))) (env w)) as [r e'] eqn:E.
    simpl in Hs. subst r.
    set (w1 := {| app_state := app_state w; disk := disk w; env := e';
                  trace := trace w ++ [ProcessConversationFromAudio capture_file s
                    (voice_sample_filepath (user (config (app_state w))))
                    (name (user (config (app_state w))))] |}).
    destruct (IH (fun s' v n e Hin => Hgood s' v n e (list_elem_of_further _ _ _ Hin)) w1)
      as (x & w' & Hloop & Hsel).
    exists x, w'. split.
    + erewrite bind_inr; [exact Hloop|].
      unfold process_segment.
      erewrite bind_inr by reflexivity.
      erewrite bind_inr by reflexivity.
      by erewrite call_eq by exact E.
    + rewrite Hsel. subst w1. simpl. unfold select. rewrite omap_app. simpl.
      by rewrite <- app_assoc.
Qed.

(** C1 (the code departs from the claim): when the conversation service
    fails on one segment of a task, the segments before it and the failing
    one are the only ones handed to the service; the segments after it are
    skipped, because the try wraps the whole loop. *)
Theorem run_stops_processing_at_first_failure
    (self : ProcessAudioChunkTask) (w : World) (detection_results : DetectionResults)
    (e1 e2 : Env) (before : list Conversation) (bad : Conversation)
    (after : list Conversation) :
  let capture_file := _capture_file self in
  let segment_of := fun convo =>
    create_conversation_segment capture_file (uuid convo)
      (start (endpoints convo)) (_format self) in
  detect_conversations (_detection_service self) (_audio_data self) (_format self)
    (is_None (_audio_data self)) (env w) = (inr detection_results, e1) →
  extract_conversations (_detection_service self) (completed detection_results)
    (map SegmentFile.filepath (map segment_of (completed detection_results))) e1
  = (inr tt, e2) →
  completed detection_results = before ++ bad :: after →
  (∀ convo v n e, convo ∈ before →
     fst (process_conversation_from_audio capture_file (segment_of convo) v n e) = inr tt) →
  (∀ v n e, ∃ x,
     fst (process_conversation_from_audio capture_file (segment_of bad) v n e) = inl x) →
  select processed_segment (trace (snd (run self w)))
  = select processed_segment (trace w) ++ map segment_of (before ++ [bad]).
Proof.
  intros capture_file segment_of Hdetect Hextract Hcompleted Hgood Hbad.
  subst capture_file. unfold run.
  erewrite bind_inr by reflexivity.
  erewrite bind_inr by (by erewrite call_eq by exact Hdetect).
  erewrite bind_inr by reflexivity.
  erewrite bind_inr by (by erewrite call_eq by exact Hextract).
  match goal with
  | |- context [(process_completed ?c ?l ≫= _) ?w0] =>
      pose proof (process_completed_returns c l w0) as Hret;
      assert (select processed_segment (trace (snd (process_completed c l w0)))
              = select processed_segment (trace w) ++ map segment_of (before ++ [bad]))
        as Hsel;
      [|destruct (process_completed c l w0) as [r w3] eqn:E]
  end.
  { unfold process_completed, try_except, segment_files_of.
    fold segment_of. rewrite Hcompleted, map_app. simpl map.
    match goal with
    | |- context [for_each _ _ ?w0] =>
        destruct (for_each_process_segment_failure (_capture_file self)
                    (map segment_of before) (segment_of bad) (map segment_of after) w0)
          as (x & w' & -> & Hsel)
    end.
    - intros s v n e (convo & -> & Hin)%list_elem_of_fmap. by apply Hgood.
    - done.
    - simpl. unfold select in *. rewrite omap_app, Hsel. simpl.
      rewrite !omap_app. simpl. rewrite !app_nil_r, map_app. done. }
  simpl in Hret, Hsel. subst r.
  erewrite bind_inr by exact E. cbv beta zeta.
  rewrite <- Hsel. apply select_traces.
  apply (steps_for_each (traces (fun ev => processed_segment ev = None))).
  intros u. by apply steps_traces_notify.
Qed.

(** *** list.index *)

Lemma index_absent {A} `{EqDecision A} (x : A) (l : list A) :
  x ∉ l → PyStr.index x l = inl ValueError.
Proof.
  induction l as [|y l IH]; intros Hx; simpl; [done|].
  apply not_elem_of_cons in Hx as [Hne Hl].
  destruct (decide (y = x)) as [->|_]; [done|].
  by rewrite IH.
Qed.

Lemma index_first {A} `{EqDecision A} (x : A) (before after : list A) :
  x ∉ before →
  PyStr.index x (before ++ x :: after) = inr (Z.of_nat (length before)).
Proof.
  induction before as [|y before IH]; intros Hx; simpl.
  - by rewrite decide_True.
  - apply not_elem_of_cons in Hx as [Hne Hl].
    rewrite decide_False by done.
    rewrite IH by done. f_equal. lia.
Qed.

(** X1: with no file carrying the capture id under the capture directory,
    find_audio_filepath does not answer absent: list.index raises ValueError,
    and the test [file_idx < 0] is never reached. *)
Lemma find_audio_filepath_no_match (d : gmap string bytes) (dir capture_uuid : string) :
  Forall (fun q => get_capture_uuid q ≠ Some capture_uuid)
         (glob d (capture_glob_pattern dir)) →
  find_audio_filepath d dir capture_uuid = inl ValueError.
Proof.
  intros Hnone. unfold find_audio_filepath, find_audio_filepath_in.
  rewrite index_absent; [done|].
  intros (q & Hq & Hin)%list_elem_of_fmap.
  rewrite Forall_forall in Hnone. by apply (Hnone q).
Qed.

(** C2 (as amended): whenever at least one file under the capture directory
    carries the capture id, find_audio_filepath returns the first such file
    in glob order, whatever comes after it, further matches included. *)
Theorem find_audio_filepath_first_match
    (d : gmap string bytes) (dir capture_uuid : string)
    (before : list string) (p : string) (after : list string) :
  glob d (capture_glob_pattern dir) = before ++ p :: after →
  get_capture_uuid p = Some capture_uuid →
  Forall (fun q => get_capture_uuid q ≠ Some capture_uuid) before →
  find_audio_filepath d dir capture_uuid = inr (Some p).
Proof.
  intros Hglob Hp Hbefore.
  unfold find_audio_filepath, find_audio_filepath_in.
  rewrite Hglob, map_app. simpl. rewrite Hp.
  rewrite index_first.
  - rewrite length_map.
    destruct (Z.ltb_spec (Z.of_nat (length before)) 0) as [?|_]; [lia|].
    rewrite Nat2Z.id. f_equal.
    rewrite lookup_app_r by lia.
    by rewrite Nat.sub_diag.
  - intros (q & Hq & Hin)%list_elem_of_fmap.
    rewrite Forall_forall in Hbefore. by apply (Hbefore q).
Qed.


(** *** process_capture *)

Lemma del_if_present_delete {V} (key : string) (d : gmap string V) :
  del_if_present key d = delete key d.
Proof.
  unfold del_if_present. destruct (d !! key) eqn:E; [done|].
  symmetry. by apply delete_id.
Qed.

(** C3 (as amended): with a file of the capture found on disk and parsed,
    process_capture depends on the in-memory detection service of the
    capture id.  When none is registered, as after a restart, the request
    fails with a 500, no task is submitted and registries and disk stay as
    they were.  When one is registered and the file is a wav or aac file,
    one final task without bytes is submitted, the capture id is removed
    from both registries and the success response is returned. *)
Theorem process_capture_with_file_on_disk
    (capture_uuid : string) (w : World) (p : string) (capture_file : CaptureFile.t) :
  find_audio_filepath (disk w) (capture_dir (captures (config (app_state w)))) capture_uuid
  = inr (Some p) →
  from_filepath (Some p) = Some capture_file →
  match conversation_detection_service_by_id (app_state w) !! capture_uuid with
  | None =>
      process_capture capture_uuid w
      = (inl (HTTPException 500 (StrOf TypeError)),
         {| app_state := app_state w; disk := disk w; env := env w;
            trace := trace w ++ [ Logged INFO (FoundFileToProcess (Some p));
                                  Logged ERROR (NoDetectionServiceExists capture_uuid);
                                  Logged ERROR (FailedToProcess TypeError) ] |})
  | Some detection_service =>
      let format := extension_of (CaptureFile.filepath capture_file) in
      format = "wav" ∨ format = "aac" →
      process_capture capture_uuid w
      = (inr {| message := "Conversation processed" |},
         {| app_state :=
              {| config := config (app_state w);
                 capture_handlers := capture_handlers (app_state w);
                 capture_files_by_id := delete capture_uuid (capture_files_by_id (app_state w));
                 conversation_detection_service_by_id :=
                   delete capture_uuid (conversation_detection_service_by_id (app_state w));
                 task_queue :=
                   task_queue (app_state w)
                   ++ [ {| _capture_file := capture_file;
                           _detection_service := detection_service;
                           _audio_data := None;
                           _format := format |} ] |};
            disk := disk w; env := env w;
            trace := trace w ++ [ Logged INFO (FoundFileToProcess (Some p)) ] |})
  end.
Proof.
  intros Hfind Hparse.
  destruct (conversation_detection_service_by_id (app_state w) !! capture_uuid)
    as [ds|] eqn:Hds.
  - intros format Hformat. unfold process_capture, try_except.
    erewrite bind_inr by reflexivity.
    erewrite bind_inr by reflexivity.
    rewrite Hfind.
    erewrite bind_inr by reflexivity.
    erewrite bind_inr by reflexivity.
    rewrite Hparse, Hds.
    rewrite new_ProcessAudioChunkTask_ok by done.
    munfold. by rewrite !del_if_present_delete.
  - unfold process_capture, try_except.
    erewrite bind_inr by reflexivity.
    erewrite bind_inr by reflexivity.
    rewrite Hfind.
    erewrite bind_inr by reflexivity.
    erewrite bind_inr by reflexivity.
    rewrite Hparse, Hds.
    munfold. by rewrite <- !app_assoc.
Qed.

(** *** The stream API *)

#[local] Instance keeps_handlers_preorder : PreOrder keeps_handlers.
Proof.
  split; [by intros w|]. intros w1 w2 w3 E1 E2. unfold keeps_handlers in *. congruence.
Qed.

Lemma steps_keeps_handlers_handle_audio_data capture_handler chunk :
  steps keeps_handlers (handle_audio_data capture_handler chunk).
Proof.
  unfold handle_audio_data, append_bytes. steps_structure; by intros w.
Qed.






#[local] Instance keeps_chunk_sessions_preorder : PreOrder keeps_chunk_sessions.
Proof.
  split; [by intros w|]. intros w1 w2 w3 [E1 F1] [E2 F2]. split; congruence.
Qed.


(** The handler registry through the endpoints. *)
Lemma steps_keeps_handlers_process_capture (capture_uuid : string) :
  steps keeps_handlers (process_capture capture_uuid).
Proof. unfold process_capture. steps_structure; by intros ?. Qed.

Lemma steps_keeps_handlers_upload_chunk
    (file : UploadFile) (capture_uuid timestamp device_type : string) :
  steps keeps_handlers (upload_chunk file capture_uuid timestamp device_type).
Proof.
  unfold upload_chunk, lookup_or_create_session, call_append_to_wav_file, append_bytes.
  steps_structure; by intros ?.
Qed.

Lemma steps_keeps_handlers_complete_audio (capture_uuid : string) :
  steps keeps_handlers (complete_audio capture_uuid).
Proof.
  unfold complete_audio, finish_capture_session. steps_structure; by intros ?.
Qed.

Lemma try_except_bind_congr {A B} (body body' : M A) (handles : Exn → bool)
    (handler : Exn → M A) (k : A → M B) (w w' : World) :
  body w = body' w' →
  (try_except body handles handler ≫= k) w = (try_except body' handles handler ≫= k) w'.
Proof. intros E. unfold mbind, M_bind, try_except. by rewrite E. Qed.

(** streaming_post, once the handler is looked up or registered: the stream
    is consumed from the world [w1] in which the capture id is bound to the
    handler. *)
Lemma streaming_post_unfold
    (request : Request) (capture_uuid device_type : string) (w : World) :
  let capture_handler :=
    default (new_StreamingCaptureHandler (app_state w) device_type capture_uuid "wav"
               (clock (env w)))
            (capture_handlers (app_state w) !! capture_uuid) in
  let w1 :=
    {| app_state :=
         {| config := config (app_state w);
            capture_handlers :=
              <[capture_uuid := capture_handler]> (capture_handlers (app_state w));
            capture_files_by_id := capture_files_by_id (app_state w);
            conversation_detection_service_by_id :=
              conversation_detection_service_by_id (app_state w);
            task_queue := task_queue (app_state w) |};
       disk := disk w; env := env w;
       trace := trace w ++ [Logged INFO ClientConnected] |} in
  streaming_post request capture_uuid device_type w
  = (try_except (consume_stream request (handle_audio_data capture_handler))
       is_ClientDisconnect
       (fun _ => log INFO (ClientDisconnectedWhileStreaming capture_uuid));;
     mret {| message := "Audio received" |}) w1.
Proof.
  intros capture_handler w1.
  set (w0 := {| app_state := app_state w; disk := disk w; env := env w;
                trace := trace w ++ [Logged INFO ClientConnected] |}).
  unfold streaming_post.
  erewrite bind_inr by reflexivity. fold w0.
  apply try_except_bind_congr.
  erewrite bind_inr by reflexivity.
  subst capture_handler.
  destruct (capture_handlers (app_state w) !! capture_uuid) as [h|] eqn:Eh; simpl in *.
  - erewrite bind_inr by (simpl; rewrite Eh; reflexivity).
    erewrite bind_inr by reflexivity.
    simpl. rewrite Eh.
    erewrite bind_inr by reflexivity.
    assert (w1 = w0) as ->; [|done].
    subst w1 w0. f_equal. destruct (app_state w); simpl in *. f_equal.
    by apply insert_id.
  - erewrite bind_inr by (simpl; rewrite Eh; reflexivity).
    erewrite bind_inr by reflexivity.
    simpl. rewrite lookup_insert_eq.
    erewrite bind_inr by reflexivity.
    done.
Qed.

(** Whatever the request and its outcome, streaming_post binds the capture
    id to the handler it had, or to a new one, and changes no other entry. *)
Lemma streaming_post_handlers
    (request : Request) (capture_uuid device_type : string) (w : World) :
  capture_handlers (app_state (snd (streaming_post request capture_uuid device_type w)))
  = <[capture_uuid :=
        default (new_StreamingCaptureHandler (app_state w) device_type capture_uuid "wav"
                   (clock (env w)))
                (capture_handlers (app_state w) !! capture_uuid)]>
      (capture_handlers (app_state w)).
Proof.
  rewrite streaming_post_unfold.
  match goal with
  | |- capture_handlers (app_state (snd (?m ?w1))) = _ =>
      assert (steps keeps_handlers m) as Hs
  end.
  { unfold consume_stream.
    steps_structure; first [apply steps_keeps_handlers_handle_audio_data | by intros ?]. }
  rewrite (Hs _). done.
Qed.

(** complete_audio for a registered handler in a format the task accepts. *)
Lemma complete_audio_registered
    (capture_uuid : string) (w : World) (capture_handler : StreamingCaptureHandler) :
  capture_handlers (app_state w) !! capture_uuid = Some capture_handler →
  handler_file_extension capture_handler = "wav"
  ∨ handler_file_extension capture_handler = "aac" →
  complete_audio capture_uuid w
  = (inr {| message := "Audio processed" |},
     {| app_state :=
          {| config := config (app_state w);
             capture_handlers := capture_handlers (app_state w);
             capture_files_by_id := capture_files_by_id (app_state w);
             conversation_detection_service_by_id :=
               conversation_detection_service_by_id (app_state w);
             task_queue :=
               task_queue (app_state w)
               ++ [ {| _capture_file := handler_capture_file capture_handler;
                       _detection_service := handler_detection_service capture_handler;
                       _audio_data := None;
                       _format := handler_file_extension capture_handler |} ] |};
        disk := disk w; env := env w;
        trace := trace w ++ [ Logged INFO (CompletingAudioCapture capture_uuid) ] |}).
Proof.
  intros Hh Hext. unfold complete_audio.
  erewrite bind_inr by reflexivity.
  erewrite bind_inr by reflexivity.
  simpl. rewrite Hh. unfold finish_capture_session.
  rewrite new_ProcessAudioChunkTask_ok by done.
  by munfold.
Qed.


(** C8 (as amended): completing a stream whose handler is registered submits
    one final task without bytes and answers "Audio processed"; the handler
    registry, like the rest of the application state, the disk and the
    collaborators, is left as it was.  The chunk path's finalize does not
    evict the streaming session either: process_capture for that capture id,
    before or after the completion, leaves the handler registry as it was,
    and so do upload_chunk and a further streaming_post for it. *)
Theorem complete_audio_keeps_session
    (capture_uuid : string) (w : World) (capture_handler : StreamingCaptureHandler)
    (request : Request) (file : UploadFile) (timestamp device_type : string) :
  capture_handlers (app_state w) !! capture_uuid = Some capture_handler →
  handler_file_extension capture_handler = "wav"
  ∨ handler_file_extension capture_handler = "aac" →
  let completed := snd (complete_audio capture_uuid w) in
  complete_audio capture_uuid w
  = (inr {| message := "Audio processed" |},
     {| app_state :=
          {| config := config (app_state w);
             capture_handlers := capture_handlers (app_state w);
             capture_files_by_id := capture_files_by_id (app_state w);
             conversation_detection_service_by_id :=
               conversation_detection_service_by_id (app_state w);
             task_queue :=
               task_queue (app_state w)
               ++ [ {| _capture_file := handler_capture_file capture_handler;
                       _detection_service := handler_detection_service capture_handler;
                       _audio_data := None;
                       _format := handler_file_extension capture_handler |} ] |};
        disk := disk w; env := env w;
        trace := trace w ++ [ Logged INFO (CompletingAudioCapture capture_uuid) ] |})
  ∧ capture_handlers (app_state completed) !! capture_uuid = Some capture_handler
  ∧ capture_handlers (app_state (snd (process_capture capture_uuid completed)))
    = capture_handlers (app_state w)
  ∧ capture_handlers (app_state (snd (process_capture capture_uuid w)))
    = capture_handlers (app_state w)
  ∧ capture_handlers
      (app_state (snd (upload_chunk file capture_uuid timestamp device_type w)))
    = capture_handlers (app_state w)
  ∧ capture_handlers (app_state (snd (streaming_post request capture_uuid device_type w)))
    = capture_handlers (app_state w).
Proof.
  intros Hh Hext completed. subst completed.
  pose proof (complete_audio_registered capture_uuid w capture_handler Hh Hext) as E.
  split; [exact E|]. split; [by rewrite E|].
  split; [|split; [|split]].
  - rewrite (steps_keeps_handlers_process_capture capture_uuid _). by rewrite E.
  - apply (steps_keeps_handlers_process_capture capture_uuid).
  - apply (steps_keeps_handlers_upload_chunk file capture_uuid timestamp device_type).
  - rewrite streaming_post_handlers, Hh. simpl. by apply insert_id.
Qed.


(** *** find_audio_filepath, further *)

Lemma index_inr {A} `{EqDecision A} (x : A) (l : list A) (i : Z) :
  PyStr.index x l = inr i → 0 ≤ i ∧ l !! Z.to_nat i = Some x.
Proof.
  revert i. induction l as [|y l IH]; intros i; simpl; [done|].
  destruct (decide (y = x)) as [->|Hne].
  - by intros [= <-].
  - destruct (PyStr.index x l) as [e|j]; [done|]. intros [= <-].
    destruct (IH j eq_refl) as [Hj Hl]. split; [lia|].
    replace (Z.to_nat (j + 1)) with (S (Z.to_nat j)) by lia. done.
Qed.

(** X2: find_audio_filepath never answers absent: its test for a negative
    index cannot succeed, so it either raises or returns a path. *)
Theorem find_audio_filepath_never_absent
    (d : gmap string bytes) (dir capture_uuid : string) :
  find_audio_filepath d dir capture_uuid ≠ inr None.
Proof.
  unfold find_audio_filepath, find_audio_filepath_in.
  destruct (PyStr.index _ _) as [e|i] eqn:E; [done|].
  apply index_inr in E as [Hi Hl].
  destruct (Z.ltb_spec i 0) as [?|_]; [lia|].
  apply (f_equal is_Some) in Hl.
  intros [= Hnone].
  assert (is_Some (glob d (capture_glob_pattern dir) !! Z.to_nat i)) as [q Hq].
  { apply lookup_lt_is_Some.
    assert (is_Some (map get_capture_uuid (glob d (capture_glob_pattern dir)) !! Z.to_nat i))
      as Hs by (rewrite Hl; eauto).
    apply lookup_lt_is_Some in Hs. by rewrite length_map in Hs. }
  congruence.
Qed.

(** X3: a path returned by find_audio_filepath is one of the files under the
    capture directory and carries the capture id asked for. *)
Theorem find_audio_filepath_sound
    (d : gmap string bytes) (dir capture_uuid : string) (p : string) :
  find_audio_filepath d dir capture_uuid = inr (Some p) →
  p ∈ glob d (capture_glob_pattern dir) ∧ get_capture_uuid p = Some capture_uuid.
Proof.
  unfold find_audio_filepath, find_audio_filepath_in.
  destruct (PyStr.index _ _) as [e|i] eqn:E; [done|].
  apply index_inr in E as [Hi Hl].
  destruct (Z.ltb_spec i 0) as [?|_]; [lia|].
  intros [= Hp]. split.
  - by eapply list_elem_of_lookup_2.
  - change (map get_capture_uuid ?l) with (get_capture_uuid <$> l) in Hl.
    rewrite list_lookup_fmap, Hp in Hl. simpl in Hl. congruence.
Qed.

(** *** process_capture, further *)

(** X4: when no file of the capture is found on disk, process_capture fails
    with a 500 that carries the lookup's exception, and only logs: a session
    still held in memory is neither used nor removed. *)
Theorem process_capture_file_not_found (capture_uuid : string) (w : World) (e : Exn) :
  find_audio_filepath (disk w) (capture_dir (captures (config (app_state w)))) capture_uuid
  = inl e →
  process_capture capture_uuid w
  = (inl (HTTPException 500 (StrOf e)),
     {| app_state := app_state w; disk := disk w; env := env w;
        trace := trace w ++ [ Logged ERROR (FailedToProcess e) ] |}).
Proof.
  intros Hfind. unfold process_capture, try_except.
  erewrite bind_inr by reflexivity.
  erewrite bind_inr by reflexivity.
  rewrite Hfind. by munfold.
Qed.

(** X5: when the file of the capture is neither a wav nor an aac file, the
    task constructor's assertion fails inside process_capture: the request
    ends in a 500, no task is submitted and the session stays registered. *)
Theorem process_capture_unsupported_format
    (capture_uuid : string) (w : World) (p : string) (capture_file : CaptureFile.t)
    (detection_service : ConversationDetectionService) :
  find_audio_filepath (disk w) (capture_dir (captures (config (app_state w)))) capture_uuid
  = inr (Some p) →
  from_filepath (Some p) = Some capture_file →
  conversation_detection_service_by_id (app_state w) !! capture_uuid = Some detection_service →
  extension_of (CaptureFile.filepath capture_file) ≠ "wav" →
  extension_of (CaptureFile.filepath capture_file) ≠ "aac" →
  process_capture capture_uuid w
  = (inl (HTTPException 500 (StrOf AssertionError)),
     {| app_state := app_state w; disk := disk w; env := env w;
        trace := trace w ++ [ Logged INFO (FoundFileToProcess (Some p));
                              Logged ERROR (FailedToProcess AssertionError) ] |}).
Proof.
  intros Hfind Hparse Hds Hwav Haac. unfold process_capture, try_except.
  erewrite bind_inr by reflexivity.
  erewrite bind_inr by reflexivity.
  rewrite Hfind.
  erewrite bind_inr by reflexivity.
  erewrite bind_inr by reflexivity.
  rewrite Hparse, Hds.
  unfold new_ProcessAudioChunkTask. rewrite decide_False by tauto.
  munfold. by rewrite <- !app_assoc.
Qed.

(** The two outcomes of process_capture once the file is found and parsed. *)
Lemma process_capture_without_service
    (capture_uuid : string) (w : World) (p : string) (capture_file : CaptureFile.t) :
  find_audio_filepath (disk w) (capture_dir (captures (config (app_state w)))) capture_uuid
  = inr (Some p) →
  from_filepath (Some p) = Some capture_file →
  conversation_detection_service_by_id (app_state w) !! capture_uuid = None →
  process_capture capture_uuid w
  = (inl (HTTPException 500 (StrOf TypeError)),
     {| app_state := app_state w; disk := disk w; env := env w;
        trace := trace w ++ [ Logged INFO (FoundFileToProcess (Some p));
                              Logged ERROR (NoDetectionServiceExists capture_uuid);
                              Logged ERROR (FailedToProcess TypeError) ] |}).
Proof.
  intros Hfind Hparse Hds. unfold process_capture, try_except.
  erewrite bind_inr by reflexivity.
  erewrite bind_inr by reflexivity.
  rewrite Hfind.
  erewrite bind_inr by reflexivity.
  erewrite bind_inr by reflexivity.
  rewrite Hparse, Hds.
  munfold. by rewrite <- !app_assoc.
Qed.

Lemma process_capture_with_service
    (capture_uuid : string) (w : World) (p : string) (capture_file : CaptureFile.t)
    (detection_service : ConversationDetectionService) :
  find_audio_filepath (disk w) (capture_dir (captures (config (app_state w)))) capture_uuid
  = inr (Some p) →
  from_filepath (Some p) = Some capture_file →
  conversation_detection_service_by_id (app_state w) !! capture_uuid = Some detection_service →
  extension_of (CaptureFile.filepath capture_file) = "wav"
  ∨ extension_of (CaptureFile.filepath capture_file) = "aac" →
  process_capture capture_uuid w
  = (inr {| message := "Conversation processed" |},
     {| app_state :=
          {| config := config (app_state w);
             capture_handlers := capture_handlers (app_state w);
             capture_files_by_id := delete capture_uuid (capture_files_by_id (app_state w));
             conversation_detection_service_by_id :=
               delete capture_uuid (conversation_detection_service_by_id (app_state w));
             task_queue :=
               task_queue (app_state w)
               ++ [ {| _capture_file := capture_file;
                       _detection_service := detection_service;
                       _audio_data := None;
                       _format := extension_of (CaptureFile.filepath capture_file) |} ] |};
        disk := disk w; env := env w;
        trace := trace w ++ [ Logged INFO (FoundFileToProcess (Some p)) ] |}).
Proof.
  intros Hfind Hparse Hds Hformat. unfold process_capture, try_except.
  erewrite bind_inr by reflexivity.
  erewrite bind_inr by reflexivity.
  rewrite Hfind.
  erewrite bind_inr by reflexivity.
  erewrite bind_inr by reflexivity.
  rewrite Hparse, Hds.
  rewrite new_ProcessAudioChunkTask_ok by done.
  munfold. by rewrite !del_if_present_delete.
Qed.

(** X6: two finalize requests in a row.  Right after a process_capture that
    succeeded, with no upload for the capture id in between, a second
    process_capture for the same id fails with a 500 and submits nothing
    more, although the file is still on disk: the first request has removed
    the detection service the second one needs. *)
Theorem process_capture_twice
    (capture_uuid : string) (w : World) (p : string) (capture_file : CaptureFile.t)
    (detection_service : ConversationDetectionService) :
  find_audio_filepath (disk w) (capture_dir (captures (config (app_state w)))) capture_uuid
  = inr (Some p) →
  from_filepath (Some p) = Some capture_file →
  conversation_detection_service_by_id (app_state w) !! capture_uuid = Some detection_service →
  extension_of (CaptureFile.filepath capture_file) = "wav"
  ∨ extension_of (CaptureFile.filepath capture_file) = "aac" →
  let w1 := snd (process_capture capture_uuid w) in
  let w2 := snd (process_capture capture_uuid w1) in
  fst (process_capture capture_uuid w) = inr {| message := "Conversation processed" |}
  ∧ fst (process_capture capture_uuid w1) = inl (HTTPException 500 (StrOf TypeError))
  ∧ task_queue (app_state w2) = task_queue (app_state w1)
  ∧ length (task_queue (app_state w1)) = S (length (task_queue (app_state w))).
Proof.
  intros Hfind Hparse Hds Hformat w1 w2. subst w2 w1.
  rewrite (process_capture_with_service _ _ _ _ _ Hfind Hparse Hds Hformat). simpl.
  erewrite process_capture_without_service; simpl; eauto.
  - repeat split; try done. rewrite length_app. simpl. lia.
  - apply lookup_delete_eq.
Qed.

(** X7: whatever makes process_capture fail, the client sees a 500 that
    carries the cause, and the registries, the queue, the disk and the
    services are as before the request: a failed finalize only logs. *)
Theorem process_capture_failure_frame (capture_uuid : string) (w : World) (e : Exn) :
  fst (process_capture capture_uuid w) = inl e →
  (∃ cause, e = HTTPException 500 (StrOf cause))
  ∧ app_state (snd (process_capture capture_uuid w)) = app_state w
  ∧ disk (snd (process_capture capture_uuid w)) = disk w
  ∧ env (snd (process_capture capture_uuid w)) = env w.
Proof.
  unfold process_capture. munfold.
  destruct (find_audio_filepath _ _ _) as [e0|fp]; simpl.
  { intros [= <-]. eauto. }
  destruct (from_filepath fp) as [cf|]; simpl; [|intros [= <-]; eauto].
  destruct (conversation_detection_service_by_id (app_state w) !! capture_uuid) as [ds|];
    simpl; [|intros [= <-]; eauto].
  destruct (new_ProcessAudioChunkTask _ _ _ _) as [e0|task]; simpl; [|done].
  intros [= <-]. eauto.
Qed.

(** *** upload_chunk, further *)

#[local] Instance keeps_env_preorder : PreOrder keeps_env.
Proof.
  split; [by intros w|]. intros w1 w2 w3 E1 E2. unfold keeps_env in *. congruence.
Qed.




(** X10: a capture file registered without its detection service makes every
    further upload for that id fail with a 500; nothing is written to disk
    and nothing is queued. *)
Theorem upload_chunk_lost_detection_service
    (file : UploadFile) (capture_uuid timestamp device_type : string) (w : World)
    (capture_file : CaptureFile.t) :
  extension_of (filename file) ∈ supported_upload_file_extensions →
  capture_files_by_id (app_state w) !! capture_uuid = Some capture_file →
  conversation_detection_service_by_id (app_state w) !! capture_uuid = None →
  let lost := HTTPException 500 (Text "Internal error: Lost conversation service") in
  upload_chunk file capture_uuid timestamp device_type w
  = (inl (HTTPException 500 (StrOf lost)),
     {| app_state := app_state w; disk := disk w; env := env w;
        trace := trace w ++ [ Logged ERROR (NoDetectionServiceExists capture_uuid);
                              Logged ERROR (FailedToUploadChunk lost) ] |}).
Proof.
  intros Hext Hcf Hds lost. unfold upload_chunk.
  rewrite decide_True by done.
  destruct (pcm_as_wav (extension_of (filename file))) as [ext hdr].
  unfold try_except, lookup_or_create_session. munfold. rewrite Hcf, Hds.
  simpl. by rewrite <- !app_assoc.
Qed.


#[local] Instance sessions_kept_preorder : PreOrder sessions_kept.
Proof.
  split.
  - intros w Hw. split; [done|]. by split.
  - intros w1 w2 w3 H12 H23 H1.
    destruct (H12 H1) as [H2 [Hc12 Hd12]]. destruct (H23 H2) as [H3 [Hc23 Hd23]].
    split; [done|]. split; by etransitivity.
Qed.

Lemma sessions_kept_same_registries (w w' : World) :
  capture_files_by_id (app_state w') = capture_files_by_id (app_state w) →
  conversation_detection_service_by_id (app_state w')
  = conversation_detection_service_by_id (app_state w) →
  sessions_kept w w'.
Proof.
  intros Ec Ed Hw. unfold registries_agree, keeps_sessions in *.
  rewrite Ec, Ed. done.
Qed.

Ltac same_registries := intros ?; apply sessions_kept_same_registries; done.

Lemma steps_sessions_kept_session
    (capture_uuid timestamp device_type file_extension : string) :
  steps sessions_kept
    (lookup_or_create_session capture_uuid timestamp device_type file_extension).
Proof.
  intros w Hw. unfold lookup_or_create_session. munfold.
  destruct (capture_files_by_id (app_state w) !! capture_uuid) as [cf|] eqn:Ecf.
  - destruct (conversation_detection_service_by_id (app_state w) !! capture_uuid);
      simpl; (split; [done|by split]).
  - simpl. unfold registries_agree, keeps_sessions in *. simpl.
    assert (conversation_detection_service_by_id (app_state w) !! capture_uuid = None)
      as Eds.
    { apply not_elem_of_dom. rewrite <- Hw. by apply not_elem_of_dom. }
    rewrite !dom_insert_L, Hw. split; [done|].
    split; by apply insert_subseteq.
Qed.

(** X13: upload_chunk keeps the two registries of the chunk API in step and
    never loses or replaces a session: if they hold the same capture ids
    before the request they do after it, and every capture file and
    detection service registered before is still registered, unchanged. *)
Theorem upload_chunk_keeps_sessions
    (file : UploadFile) (capture_uuid timestamp device_type : string) (w : World) :
  registries_agree (app_state w) →
  let w' := snd (upload_chunk file capture_uuid timestamp device_type w) in
  registries_agree (app_state w')
  ∧ (∀ id capture_file,
       capture_files_by_id (app_state w) !! id = Some capture_file →
       capture_files_by_id (app_state w') !! id = Some capture_file)
  ∧ (∀ id detection_service,
       conversation_detection_service_by_id (app_state w) !! id = Some detection_service →
       conversation_detection_service_by_id (app_state w') !! id = Some detection_service).
Proof.
  intros Hw w'. subst w'.
  assert (steps sessions_kept (upload_chunk file capture_uuid timestamp device_type)) as Hs.
  { unfold upload_chunk.
    apply steps_try_except; [typeclasses eauto| |intros e; steps_structure; same_registries].
    case_decide; [|apply steps_mret; typeclasses eauto].
    destruct (pcm_as_wav (extension_of (filename file))) as [ext hdr].
    apply steps_bind; [typeclasses eauto|apply steps_sessions_kept_session|intros [cf ds]].
    unfold call_append_to_wav_file, append_bytes.
    steps_structure; same_registries. }
  destruct (Hs w Hw) as [Hagree [Hc Hd]]. split; [done|].
  split; intros id x Hx; by eapply lookup_weaken.
Qed.

(** X14: process_capture concerns one capture id.  The sessions of all other
    ids are as before, and registries that held the same capture ids before
    the request hold the same ids after it. *)
Theorem process_capture_touches_one_session (capture_uuid : string) (w : World) :
  registries_agree (app_state w) →
  let w' := snd (process_capture capture_uuid w) in
  registries_agree (app_state w')
  ∧ ∀ id, id ≠ capture_uuid →
      capture_files_by_id (app_state w') !! id = capture_files_by_id (app_state w) !! id
      ∧ conversation_detection_service_by_id (app_state w') !! id
        = conversation_detection_service_by_id (app_state w) !! id.
Proof.
  intros Hw w'. subst w'. unfold process_capture. munfold.
  destruct (find_audio_filepath _ _ _) as [e0|fp]; simpl; [done|].
  destruct (from_filepath fp) as [cf|]; simpl; [|done].
  destruct (conversation_detection_service_by_id (app_state w) !! capture_uuid) as [ds|];
    simpl; [|done].
  destruct (new_ProcessAudioChunkTask _ _ _ _) as [e0|task]; simpl; [done|].
  rewrite !del_if_present_delete. unfold registries_agree in *. simpl.
  rewrite !dom_delete_L, Hw. split; [done|].
  intros id Hid. by rewrite !lookup_delete_ne.
Qed.

#[local] Instance traces_request_preorder : PreOrder (traces request_event) :=
  traces_preorder request_event.

(** X15: the request path never runs the services.  upload_chunk and
    process_capture leave the state of the detection, conversation and
    notification services as it was, and what they add to the trace are log
    lines and writes to the backing file only. *)
Theorem request_path_never_calls_services
    (file : UploadFile) (capture_uuid timestamp device_type : string) (w : World) :
  env (snd (upload_chunk file capture_uuid timestamp device_type w)) = env w
  ∧ traces request_event w (snd (upload_chunk file capture_uuid timestamp device_type w))
  ∧ env (snd (process_capture capture_uuid w)) = env w
  ∧ traces request_event w (snd (process_capture capture_uuid w)).
Proof.
  split; [|split; [|split]].
  - revert w. change (steps keeps_env (upload_chunk file capture_uuid timestamp device_type)).
    unfold upload_chunk, lookup_or_create_session, call_append_to_wav_file, append_bytes.
    steps_structure; by intros ?.
  - revert w. change (steps (traces request_event)
                        (upload_chunk file capture_uuid timestamp device_type)).
    unfold upload_chunk, lookup_or_create_session, call_append_to_wav_file, append_bytes.
    steps_structure; first [by apply steps_traces_emit | same_trace].
  - revert w. change (steps keeps_env (process_capture capture_uuid)).
    unfold process_capture. steps_structure; by intros ?.
  - revert w. change (steps (traces request_event) (process_capture capture_uuid)).
    unfold process_capture.
    steps_structure; first [by apply steps_traces_emit | same_trace].
Qed.

Lemma lookup_or_create_session_queue
    (capture_uuid timestamp device_type file_extension : string) (w : World) :
  task_queue (app_state (snd (lookup_or_create_session capture_uuid timestamp device_type
                                file_extension w)))
  = task_queue (app_state w).
Proof.
  unfold lookup_or_create_session. munfold.
  destruct (capture_files_by_id (app_state w) !! capture_uuid); [|done].
  by destruct (conversation_detection_service_by_id (app_state w) !! capture_uuid).
Qed.

(** X16: one task per accepted chunk.  When upload_chunk answers "Audio
    processed" it has put exactly one task at the end of the queue; with any
    other outcome, a refused format or a failure, the queue is as before. *)
Theorem upload_chunk_one_task_per_accepted_chunk
    (file : UploadFile) (capture_uuid timestamp device_type : string) (w : World) :
  let r := upload_chunk file capture_uuid timestamp device_type w in
  (fst r = inr {| message := "Audio processed" |}
   ∧ ∃ task, task_queue (app_state (snd r)) = task_queue (app_state w) ++ [task]
             ∧ _audio_data task = Some (file_content file))
  ∨ (fst r ≠ inr {| message := "Audio processed" |}
     ∧ task_queue (app_state (snd r)) = task_queue (app_state w)).
Proof.
  intros r. subst r. unfold upload_chunk.
  case_decide.
  2:{ right. munfold. split; [|done]. intros [= Hm]. }
  destruct (pcm_as_wav (extension_of (filename file))) as [ext hdr].
  pose proof (lookup_or_create_session_queue capture_uuid timestamp device_type ext w) as Hq.
  unfold try_except.
  destruct (lookup_or_create_session capture_uuid timestamp device_type ext w)
    as [[e|[cf ds]] w1] eqn:Hs; simpl in Hq.
  { erewrite bind_inl by exact Hs. right. munfold. by split. }
  erewrite bind_inr by exact Hs.
  unfold call_append_to_wav_file, append_bytes.
  destruct hdr.
  - destruct (append_to_wav_file (CaptureFile.filepath cf) (file_content file) 16000
                (disk w1)) as [e|[n d']] eqn:Ha.
    + right. munfold. rewrite Ha. simpl. by split.
    + destruct (new_ProcessAudioChunkTask cf ds ext (Some (file_content file)))
        as [e|task] eqn:Ht.
      * right. munfold. rewrite Ha. simpl. by split.
      * apply new_ProcessAudioChunkTask_inv in Ht as [-> _].
        left. munfold. rewrite Ha. simpl. split; [done|].
        eexists. rewrite Hq. by split.
  - destruct (new_ProcessAudioChunkTask cf ds ext (Some (file_content file)))
      as [e|task] eqn:Ht.
    + right. munfold. by split.
    + apply new_ProcessAudioChunkTask_inv in Ht as [-> _].
      left. munfold. split; [done|].
      eexists. rewrite Hq. by split.
Qed.

(** *** The task, further *)

(** X17: when the detector raises, the task ends with that exception right
    after the call: nothing is extracted, processed or notified, and the
    application state and the disk are untouched. *)
Theorem run_detection_failure
    (self : ProcessAudioChunkTask) (w : World) (e : Exn) (e1 : Env) :
  detect_conversations (_detection_service self) (_audio_data self) (_format self)
    (is_None (_audio_data self)) (env w) = (inl e, e1) →
  run self w
  = (inl e,
     {| app_state := app_state w; disk := disk w; env := e1;
        trace := trace w
                 ++ [ DetectConversations (_detection_service self) (_audio_data self)
                        (_format self) (is_None (_audio_data self)) ] |}).
Proof.
  intros Hdetect. unfold run.
  erewrite bind_inr by reflexivity.
  erewrite bind_inl; [reflexivity|].
  by erewrite call_eq by exact Hdetect.
Qed.

(** X18: when the extraction raises, the task ends with that exception: no
    segment is handed to the conversation service and no progress update is
    sent, although the detector has already advanced. *)
Theorem run_extraction_failure
    (self : ProcessAudioChunkTask) (w : World) (detection_results : DetectionResults)
    (e : Exn) (e1 e2 : Env) :
  let segment_files :=
    segment_files_of (_capture_file self) (_format self) detection_results in
  detect_conversations (_detection_service self) (_audio_data self) (_format self)
    (is_None (_audio_data self)) (env w) = (inr detection_results, e1) →
  extract_conversations (_detection_service self) (completed detection_results)
    (map SegmentFile.filepath segment_files) e1 = (inl e, e2) →
  fst (run self w) = inl e
  ∧ env (snd (run self w)) = e2
  ∧ select processed_segment (trace (snd (run self w))) = select processed_segment (trace w)
  ∧ select sent_progress (trace (snd (run self w))) = select sent_progress (trace w).
Proof.
  intros segment_files Hdetect Hextract. subst segment_files. unfold run.
  erewrite bind_inr by reflexivity.
  erewrite bind_inr by (by erewrite call_eq by exact Hdetect).
  erewrite bind_inr by reflexivity.
  erewrite bind_inl by (by erewrite call_eq by exact Hextract).
  simpl. unfold select. rewrite !omap_app. simpl. by rewrite !app_nil_r.
Qed.




(** The processing stage logs at most one error. *)
Lemma process_completed_errors capture_file (segment_files : list SegmentFile.t)
    (w : World) :
  ∃ errors,
    select error_logged (trace (snd (process_completed capture_file segment_files w)))
    = select error_logged (trace w) ++ errors
    ∧ (length errors ≤ 1)%nat.
Proof.
  unfold process_completed, try_except.
  pose proof (steps_for_each (traces (fun ev => error_logged ev = None)) segment_files
                (process_segment capture_file)
                (fun s => steps_traces_process_segment _ capture_file s
                            (fun _ _ _ _ => eq_refl)) w) as Hloop.
  apply select_traces in Hloop.
  destruct (for_each segment_files (process_segment capture_file) w) as [[e|[]] w1];
    simpl in *.
  - exists [ErrorProcessingConversation e]. unfold select in *.
    rewrite omap_app, Hloop. simpl. split; [done|lia].
  - exists []. rewrite app_nil_r. split; [done|simpl; lia].
Qed.

(** X21: one error line per task at most.  However many segments there are
    and whatever the collaborators do, run adds at most one entry to the
    error log. *)
Theorem run_logs_at_most_one_error (self : ProcessAudioChunkTask) (w : World) :
  ∃ errors,
    select error_logged (trace (snd (run self w))) = select error_logged (trace w) ++ errors
    ∧ (length errors ≤ 1)%nat.
Proof.
  unfold run.
  erewrite bind_inr by reflexivity.
  destruct (detect_conversations (_detection_service self) (_audio_data self)
              (_format self) (is_None (_audio_data self)) (env w))
    as [[e|detection_results] e1] eqn:Hdetect.
  { erewrite bind_inl by (by erewrite call_eq by exact Hdetect).
    exists []. simpl. unfold select. rewrite omap_app. simpl. rewrite app_nil_r. split; [done|lia]. }
  erewrite bind_inr by (by erewrite call_eq by exact Hdetect).
  erewrite bind_inr by reflexivity.
  match goal with
  | |- context [call (extract_conversations ?s ?c ?l)] =>
      destruct (extract_conversations s c l e1) as [[e|[]] e2] eqn:Hextract
  end.
  { erewrite bind_inl by (by erewrite call_eq by exact Hextract).
    exists []. simpl. unfold select. rewrite !omap_app. simpl. rewrite !app_nil_r. split; [done|lia]. }
  erewrite bind_inr by (by erewrite call_eq by exact Hextract).
  match goal with
  | |- context [(process_completed ?c ?l ≫= _) ?w0] =>
      pose proof (process_completed_returns c l w0) as Hret;
      destruct (process_completed_errors c l w0) as (errors & Herr & Hlen);
      destruct (process_completed c l w0) as [r w3] eqn:E
  end.
  simpl in Hret, Herr. subst r.
  erewrite bind_inr by exact E. cbv beta zeta.
  exists errors. split; [|done].
  erewrite select_traces.
  2:{ apply (steps_for_each (traces (fun ev => error_logged ev = None))).
      intros u. by apply steps_traces_notify. }
  rewrite Herr. unfold select. rewrite !omap_app. simpl. by rewrite !app_nil_r.
Qed.

(** What the notification loop sends is an initial part of its list. *)
Lemma for_each_notify_prefix capture_file (updates : list ConversationProgress.t)
    (w : World) :
  ∃ n, select sent_progress (trace (snd (for_each updates (notify capture_file) w)))
       = select sent_progress (trace w) ++ take n updates.
Proof.
  revert w. induction updates as [|u updates IH]; intros w.
  - exists 0%nat. simpl. by rewrite app_nil_r.
  - simpl for_each.
    set (ev := SendNotification "New Conversation-in-Progress"
                 ("On device: " +:+ value (CaptureFile.device_type capture_file))
                 "conversation_progress" u).
    destruct (send_notification "New Conversation-in-Progress"
                ("On device: " +:+ value (CaptureFile.device_type capture_file))
                "conversation_progress" u (env w)) as [[e|[]] e'] eqn:E.
    + exists 1%nat.
      assert (Hstep : (emit ev;; call (send_notification "New Conversation-in-Progress"
                ("On device: " +:+ value (CaptureFile.device_type capture_file))
                "conversation_progress" u)) w
              = (inl e, {| app_state := app_state w; disk := disk w; env := e';
                           trace := trace w ++ [ev] |})).
      { erewrite bind_inr by reflexivity. by erewrite call_eq by exact E. }
      change (notify capture_file u) with
        (emit ev;; call (send_notification "New Conversation-in-Progress"
                ("On device: " +:+ value (CaptureFile.device_type capture_file))
                "conversation_progress" u)).
      erewrite bind_inl by exact Hstep.
      simpl. unfold select. rewrite omap_app. simpl. by rewrite take_0.
    + set (w1 := {| app_state := app_state w; disk := disk w; env := e';
                    trace := trace w ++ [ev] |}).
      assert (Hstep : (emit ev;; call (send_notification "New Conversation-in-Progress"
                ("On device: " +:+ value (CaptureFile.device_type capture_file))
                "conversation_progress" u)) w = (inr tt, w1)).
      { erewrite bind_inr by reflexivity. by erewrite call_eq by exact E. }
      change (notify capture_file u) with
        (emit ev;; call (send_notification "New Conversation-in-Progress"
                ("On device: " +:+ value (CaptureFile.device_type capture_file))
                "conversation_progress" u)).
      erewrite bind_inr by exact Hstep. cbv beta.
      destruct (IH w1) as [n Hn].
      exists (S n). rewrite Hn. subst w1. simpl. unfold select. rewrite omap_app. simpl.
      by rewrite <- app_assoc.
Qed.

(** X22: progress updates are sent in order and for reported conversations
    only.  Whatever the conversation service and the notifier do, what the
    task has handed to the notifier when it ends is an initial part of the
    list "completed conversations, then the one in progress". *)
Theorem run_sends_a_prefix_of_the_updates
    (self : ProcessAudioChunkTask) (w : World) (detection_results : DetectionResults)
    (e1 e2 : Env) :
  let segment_files :=
    segment_files_of (_capture_file self) (_format self) detection_results in
  detect_conversations (_detection_service self) (_audio_data self) (_format self)
    (is_None (_audio_data self)) (env w) = (inr detection_results, e1) →
  extract_conversations (_detection_service self) (completed detection_results)
    (map SegmentFile.filepath segment_files) e1 = (inr tt, e2) →
  ∃ n, select sent_progress (trace (snd (run self w)))
       = select sent_progress (trace w)
         ++ take n (progress_updates_of (_capture_file self) detection_results).
Proof.
  intros segment_files Hdetect Hextract. subst segment_files. unfold run.
  erewrite bind_inr by reflexivity.
  erewrite bind_inr by (by erewrite call_eq by exact Hdetect).
  erewrite bind_inr by reflexivity.
  erewrite bind_inr by (by erewrite call_eq by exact Hextract).
  match goal with
  | |- context [(process_completed ?c ?l ≫= _) ?w0] =>
      pose proof (process_completed_returns c l w0) as Hret;
      pose proof (steps_traces_process_completed
                    (fun ev => sent_progress ev = None) c l
                    (fun _ _ _ _ => eq_refl) (fun _ => eq_refl) w0) as Hsilent;
      destruct (process_completed c l w0) as [r w3] eqn:E
  end.
  simpl in Hret. subst r. apply select_traces in Hsilent. simpl in Hsilent.
  erewrite bind_inr by exact E. cbv beta zeta.
  destruct (for_each_notify_prefix (_capture_file self)
              (progress_updates_of (_capture_file self) detection_results) w3) as [n Hn].
  exists n. rewrite Hn, Hsilent.
  unfold select. rewrite !omap_app. simpl. by rewrite !app_nil_r.
Qed.

(** *** The stream API, further *)

(** X23: completing a stream that is not registered raises an HTTPException
    with status 500, "Capture session not found"; the request is logged and
    nothing else happens. *)
Theorem complete_audio_unknown_session (capture_uuid : string) (w : World) :
  capture_handlers (app_state w) !! capture_uuid = None →
  complete_audio capture_uuid w
  = (inl (HTTPException 500 (Text "Capture session not found")),
     {| app_state := app_state w; disk := disk w; env := env w;
        trace := trace w ++ [ Logged INFO (CompletingAudioCapture capture_uuid);
                              Logged ERROR (CaptureSessionNotFound capture_uuid) ] |}).
Proof.
  intros Hh. unfold complete_audio.
  erewrite bind_inr by reflexivity.
  erewrite bind_inr by reflexivity.
  simpl. rewrite Hh. munfold. by rewrite <- !app_assoc.
Qed.


(** X25: the chunk API never touches the streaming sessions: upload_chunk
    and process_capture leave the handler registry as it was, so finalising
    a capture through process_capture does not remove its streaming
    handler. *)
Theorem chunk_api_keeps_handlers
    (file : UploadFile) (capture_uuid timestamp device_type : string) (w : World) :
  capture_handlers (app_state (snd (upload_chunk file capture_uuid timestamp device_type w)))
  = capture_handlers (app_state w)
  ∧ capture_handlers (app_state (snd (process_capture capture_uuid w)))
    = capture_handlers (app_state w).
Proof.
  split.
  - revert w. change (steps keeps_handlers
                        (upload_chunk file capture_uuid timestamp device_type)).
    unfold upload_chunk, lookup_or_create_session, call_append_to_wav_file, append_bytes.
    steps_structure; by intros ?.
  - revert w. change (steps keeps_handlers (process_capture capture_uuid)).
    unfold process_capture. steps_structure; by intros ?.
Qed.

(** *** The extension of an upload *)

Lemma lacks_String (c a : ascii) (s : string) :
  lacks c (String a s) ↔ a ≠ c ∧ lacks c s.
Proof.
  unfold lacks. split.
  - intros Hl. split.
    + intros ->. by apply (Hl 0%nat).
    + intros i. apply (Hl (S i)).
  - intros [Hne Hl] [|i]; simpl; [congruence|apply Hl].
Qed.

Lemma rfind_from_lacks (c : ascii) (s : string) (i found : Z) :
  lacks c s → PyStr.rfind_from c s i found = found.
Proof.
  revert i found. induction s as [|a s IH]; intros i found Hl; simpl; [done|].
  apply lacks_String in Hl as [Hne Hl].
  destruct (Ascii.eqb_spec a c) as [->|_]; [done|]. by apply IH.
Qed.

Lemma rfind_from_append (c : ascii) (s1 s2 : string) (i found : Z) :
  PyStr.rfind_from c (s1 +:+ s2) i found
  = PyStr.rfind_from c s2 (i + Z.of_nat (String.length s1)) (PyStr.rfind_from c s1 i found).
Proof.
  revert i found. induction s1 as [|a s1 IH]; intros i found; simpl.
  - by rewrite Z.add_0_r.
  - rewrite IH. f_equal. lia.
Qed.

(** The index found is the fallback or an index of the string. *)
Lemma rfind_from_bounds (c : ascii) (s : string) (i found : Z) :
  PyStr.rfind_from c s i found = found
  ∨ i ≤ PyStr.rfind_from c s i found < i + Z.of_nat (String.length s).
Proof.
  revert i found. induction s as [|a s IH]; intros i found; simpl; [by left|].
  destruct (Ascii.eqb a c).
  - destruct (IH (i + 1) i) as [-> | ?]; right; lia.
  - destruct (IH (i + 1) found) as [-> | ?]; [by left|right; lia].
Qed.

Lemma substring_all (s : string) : String.substring 0 (String.length s) s = s.
Proof. induction s as [|a s IH]; simpl; [done|]. by rewrite IH. Qed.

Lemma substring_append_r (s1 s2 : string) :
  String.substring (String.length s1) (String.length s2) (s1 +:+ s2) = s2.
Proof.
  induction s1 as [|a s1 IH]; simpl; [apply substring_all|done].
Qed.

(** X26: a name without a dot has no extension, so such an upload is refused
    with the soft failure, whatever the name and the bytes are, and the
    world is left as it was. *)
Theorem upload_chunk_name_without_dot
    (file : UploadFile) (capture_uuid timestamp device_type : string) (w : World) :
  lacks PyStr.dot (filename file) →
  extension_of (filename file) = ""
  ∧ upload_chunk file capture_uuid timestamp device_type w
    = (inr {| message := "Failed to process because file extension is unsupported: " |},
       w).
Proof.
  intros Hl.
  assert (extension_of (filename file) = "") as Hext.
  { unfold extension_of, PyStr.splitext, PyStr.rfind.
    rewrite (rfind_from_lacks PyStr.dot) by done.
    destruct (rfind_from_bounds PyStr.slash (filename file) 0 (-1)) as [-> | Hs].
    - done.
    - destruct (Z.ltb_spec (PyStr.rfind_from PyStr.slash (filename file) 0 (-1)) (-1));
        [lia|done]. }
  split; [done|]. unfold upload_chunk, try_except. rewrite Hext.
  rewrite decide_False; [done|].
  rewrite supported_upload_file_extensions_spec. intros [?|[?|?]]; discriminate.
Qed.

(** X27: the extension of "stem.ext" is ext, for a stem without slash whose
    first character is not a dot and an extension without dot or slash: the
    format check of upload_chunk then depends on ext alone. *)
Theorem extension_of_stem_dot_ext (a : ascii) (stem ext : string) :
  a ≠ PyStr.dot →
  lacks PyStr.slash (String a stem) →
  lacks PyStr.dot ext →
  lacks PyStr.slash ext →
  extension_of (String a stem +:+ "." +:+ ext) = ext.
Proof.
  intros Ha Hstem Hext Hslash.
  assert (Hdot : PyStr.rfind PyStr.dot (String a stem +:+ "." +:+ ext)
                 = Z.of_nat (String.length (String a stem))).
  { unfold PyStr.rfind. rewrite rfind_from_append.
    change ("." +:+ ext) with (String PyStr.dot ext).
    cbn [PyStr.rfind_from]. rewrite Ascii.eqb_refl.
    by rewrite rfind_from_lacks. }
  assert (Hsep : PyStr.rfind PyStr.slash (String a stem +:+ "." +:+ ext) = -1).
  { unfold PyStr.rfind. rewrite rfind_from_append.
    rewrite (rfind_from_lacks PyStr.slash (String a stem)) by done.
    change ("." +:+ ext) with (String PyStr.dot ext).
    cbn [PyStr.rfind_from].
    replace (Ascii.eqb PyStr.dot PyStr.slash) with false by reflexivity.
    by rewrite rfind_from_lacks. }
  unfold extension_of, PyStr.splitext. rewrite Hdot, Hsep.
  assert (Hnd : PyStr.has_non_dot (String a stem +:+ "." +:+ ext) (Z.to_nat (-1 + 1))
                  (Z.to_nat (Z.of_nat (String.length (String a stem)) - (-1 + 1))) = true).
  { replace (Z.to_nat (Z.of_nat (String.length (String a stem)) - (-1 + 1)))
      with (S (String.length stem)) by (simpl; lia).
    simpl. by destruct (Ascii.eqb_spec a PyStr.dot). }
  rewrite Hnd.
  destruct (Z.ltb_spec (-1) (Z.of_nat (String.length (String a stem)))) as [_|?]; [|lia].
  cbn [andb snd]. rewrite Nat2Z.id.
  assert (Hlen : (String.length (String a stem +:+ "." +:+ ext)
                  - String.length (String a stem))%nat
                 = String.length ("." +:+ ext)).
  { clear. generalize (String a stem). intros s.
    induction s as [|b s IH]; simpl in *; [done|exact IH]. }
  rewrite Hlen, substring_append_r.
  change ("." +:+ ext) with (String PyStr.dot ext).
  cbn [PyStr.lstrip_dot]. rewrite Ascii.eqb_refl.
  destruct ext as [|b ext]; [done|].
  apply lacks_String in Hext as [Hb _]. simpl.
  by destruct (Ascii.eqb_spec b PyStr.dot).
Qed.

End Properties.

(** ** The properties on explicit inputs *)

Module Examples.

Import Sample Scenario.

(** Witness of [find_audio_filepath_first_match]: two recordings of "abc". *)
Lemma find_audio_filepath_first_match_witness :
  glob two_recordings (capture_glob_pattern "captures") = [] ++ (abc_first :: [abc_second])
  ∧ get_capture_uuid abc_first = Some "abc"
  ∧ find_audio_filepath two_recordings "captures" "abc" = inr (Some abc_first).
Proof.
  split; [vm_compute; reflexivity|]. split; [vm_compute; reflexivity|].
  apply (find_audio_filepath_first_match two_recordings "captures" "abc"
           [] abc_first [abc_second]).
  - vm_compute; reflexivity.
  - vm_compute; reflexivity.
  - constructor.
Defined.

(** C2, as stated, fails: with two files carrying the capture id the lookup
    does not return absent, it returns the first of the two. *)
Lemma find_audio_filepath_picks_among_several :
  length (filter (fun p => get_capture_uuid p = Some "abc")
            (glob two_recordings (capture_glob_pattern "captures"))) = 2%nat
  ∧ find_audio_filepath two_recordings "captures" "abc" = inr (Some abc_first)
  ∧ find_audio_filepath two_recordings "captures" "abc" ≠ inr None.
Proof.
  split; [vm_compute; reflexivity|].
  assert (E : find_audio_filepath two_recordings "captures" "abc" = inr (Some abc_first))
    by (vm_compute; reflexivity).
  split; [exact E|]. rewrite E. discriminate.
Qed.

(** With no file carrying the capture id the lookup raises. *)
Example find_audio_filepath_raises_without_match :
  find_audio_filepath one_recording "captures" "xyz" = inl ValueError.
Proof. vm_compute; reflexivity. Qed.

(** Witness of [process_capture_with_file_on_disk]: after a restart. *)
Lemma process_capture_with_file_on_disk_witness :
  find_audio_filepath (disk after_restart) "captures" "abc" = inr (Some abc_first)
  ∧ from_filepath (Some abc_first) = Some abc_file
  ∧ process_capture "abc" after_restart
    = (inl (HTTPException 500 (StrOf TypeError)),
       {| app_state := empty_app_state; disk := one_recording; env := quiet;
          trace := [ Logged INFO (FoundFileToProcess (Some abc_first));
                     Logged ERROR (NoDetectionServiceExists "abc");
                     Logged ERROR (FailedToProcess TypeError) ] |}).
Proof.
  split; [vm_compute; reflexivity|]. split; [vm_compute; reflexivity|].
  apply (process_capture_with_file_on_disk "abc" after_restart abc_first abc_file).
  - vm_compute; reflexivity.
  - vm_compute; reflexivity.
Defined.

(** C3, as stated, fails: with the recording on disk and nothing in memory
    process_capture answers 500 and submits no task. *)
Lemma process_capture_after_restart_fails :
  capture_files_by_id (app_state after_restart) !! "abc" = None
  ∧ conversation_detection_service_by_id (app_state after_restart) !! "abc" = None
  ∧ find_audio_filepath (disk after_restart) "captures" "abc" = inr (Some abc_first)
  ∧ fst (process_capture "abc" after_restart) = inl (HTTPException 500 (StrOf TypeError))
  ∧ task_queue (app_state (snd (process_capture "abc" after_restart))) = [].
Proof. repeat split; vm_compute; reflexivity. Qed.

(** With the session still in memory the same request succeeds. *)
Example process_capture_with_session :
  fst (process_capture "abc" abc_uploading) = inr {| message := "Conversation processed" |}
  ∧ map _audio_data (task_queue (app_state (snd (process_capture "abc" abc_uploading))))
    = [ None ]
  ∧ capture_files_by_id (app_state (snd (process_capture "abc" abc_uploading))) !! "abc"
    = None.
Proof. repeat split; vm_compute; reflexivity. Qed.

(** Witness of [upload_chunk_pcm_writes_header_every_time]: a pcm chunk for
    a session that already holds data. *)
Lemma upload_chunk_pcm_writes_header_every_time_witness :
  extension_of (filename pcm_chunk) = "pcm"
  ∧ lookup_or_create_session "abc" "20240101" "ios" "wav" abc_uploading
    = (inr (abc_file, abc_service), abc_uploading)
  ∧ fst (upload_chunk pcm_chunk "abc" "20240101" "ios" abc_uploading)
    = inr {| message := "Audio processed" |}
  ∧ disk (snd (upload_chunk pcm_chunk "abc" "20240101" "ios" abc_uploading)) !! abc_first
    = Some [ x01; x10; x20 ]
  ∧ select wav_append
      (trace (snd (upload_chunk pcm_chunk "abc" "20240101" "ios" abc_uploading)))
    = [ (abc_first, [x10; x20], 16000) ].
Proof.
  split; [vm_compute; reflexivity|]. split; [vm_compute; reflexivity|].
  destruct (upload_chunk_pcm_writes_header_every_time pcm_chunk "abc" "20240101" "ios"
              abc_uploading abc_uploading abc_file abc_service)
    as (_ & Heq & Hsel & _).
  - vm_compute; reflexivity.
  - vm_compute; reflexivity.
  - split; [|split].
    + rewrite Heq. reflexivity.
    + rewrite Heq. vm_compute; reflexivity.
    + exact Hsel.
Defined.

(** C4, as stated, fails: the session of "abc" already holds data, and the
    pcm chunk is appended with the header flag set all the same. *)
Lemma upload_chunk_pcm_header_flag_with_prior_data :
  capture_files_by_id (app_state abc_uploading) !! "abc" = Some abc_file
  ∧ disk abc_uploading !! CaptureFile.filepath abc_file = Some [x01]
  ∧ snd (pcm_as_wav (extension_of (filename pcm_chunk))) = true
  ∧ select wav_append
      (trace (snd (upload_chunk pcm_chunk "abc" "20240101" "ios" abc_uploading)))
    = [ (CaptureFile.filepath abc_file, file_content pcm_chunk, 16000) ].
Proof. repeat split; vm_compute; reflexivity. Qed.

(** Witness of [upload_chunk_unsupported_extension]: an mp3 chunk. *)
Lemma upload_chunk_unsupported_extension_witness :
  (extension_of (filename mp3_chunk) ∉ supported_upload_file_extensions)
  ∧ upload_chunk mp3_chunk "abc" "20240101" "ios" after_restart
    = (inr {| message := "Failed to process because file extension is unsupported: mp3" |},
       after_restart).
Proof.
  assert (H : extension_of (filename mp3_chunk) ∉ supported_upload_file_extensions).
  { rewrite supported_upload_file_extensions_spec. vm_compute.
    intros [E|[E|E]]; discriminate E. }
  split; [exact H|].
  exact (upload_chunk_unsupported_extension mp3_chunk "abc" "20240101" "ios"
           after_restart H).
Defined.

(** Witness of [upload_chunk_task_format]: the first pcm chunk of a capture. *)
Lemma upload_chunk_task_format_witness :
  (extension_of (filename pcm_chunk) ∈ supported_upload_file_extensions)
  ∧ fst (upload_chunk pcm_chunk "abc" "20240101" "ios" after_restart)
    = inr {| message := "Audio processed" |}
  ∧ map _format
      (task_queue (app_state (snd (upload_chunk pcm_chunk "abc" "20240101" "ios"
                                     after_restart))))
    = [ "wav" ].
Proof.
  assert (H : extension_of (filename pcm_chunk) ∈ supported_upload_file_extensions).
  { rewrite supported_upload_file_extensions_spec. left. vm_compute; reflexivity. }
  split; [exact H|].
  destruct (upload_chunk_task_format pcm_chunk "abc" "20240101" "ios" after_restart
              (snd (lookup_or_create_session "abc" "20240101" "ios" "wav" after_restart))
              abc_file abc_service 2
              (<[abc_first := [x01; x10; x20]]> one_recording) H)
    as [_ Heq].
  - vm_compute; reflexivity.
  - vm_compute; reflexivity.
  - rewrite Heq. split; reflexivity.
Defined.


(** Witness of [run_stops_processing_at_first_failure]: the service fails
    on the second of three conversations, and the third is never handed to
    it. *)
Lemma run_stops_processing_at_first_failure_witness :
  completed three_completed
  = [ convo "c1" 0 10 ] ++ (convo "c2" 20 30 :: [ convo "c3" 40 50 ])
  ∧ map SegmentFile.conversation_uuid
      (select processed_segment (trace (snd (run abc_task abc_processing))))
    = [ "c1"; "c2" ].
Proof.
  split; [reflexivity|].
  rewrite (run_stops_processing_at_first_failure abc_task abc_processing three_completed
             quiet quiet [ convo "c1" 0 10 ] (convo "c2" 20 30) [ convo "c3" 40 50 ]).
  - vm_compute; reflexivity.
  - vm_compute; reflexivity.
  - vm_compute; reflexivity.
  - reflexivity.
  - intros c v n e ->%list_elem_of_singleton. vm_compute; reflexivity.
  - intros v n e. eexists. vm_compute; reflexivity.
Defined.

(** Witness of [complete_audio_keeps_session]: a registered stream. *)
Lemma complete_audio_keeps_session_witness :
  capture_handlers (app_state abc_streaming) !! "abc" = Some abc_handler
  ∧ fst (complete_audio "abc" abc_streaming) = inr {| message := "Audio processed" |}
  ∧ capture_handlers (app_state (snd (complete_audio "abc" abc_streaming))) !! "abc"
    = Some abc_handler
  ∧ capture_handlers
      (app_state (snd (process_capture "abc" (snd (complete_audio "abc" abc_streaming)))))
    = capture_handlers (app_state abc_streaming).
Proof.
  assert (H : capture_handlers (app_state abc_streaming) !! "abc" = Some abc_handler)
    by (vm_compute; reflexivity).
  split; [exact H|].
  destruct (complete_audio_keeps_session "abc" abc_streaming abc_handler dropped_stream
              pcm_chunk "20240101" "ios" H (or_introl eq_refl))
    as (E & Hkept & Hfinalize & _).
  split; [by rewrite E|]. split; [exact Hkept|exact Hfinalize].
Defined.


(** Witness of [run_detects_with_capture_finished_iff_no_audio]: the final
    task of a session held in memory. *)
Lemma run_detects_with_capture_finished_iff_no_audio_witness :
  fst (process_capture "abc" abc_uploading) = inr {| message := "Conversation processed" |}
  ∧ ∃ task,
      task_queue (app_state (snd (process_capture "abc" abc_uploading))) = [] ++ [task]
      ∧ _audio_data task = None.
Proof.
  assert (H : fst (process_capture "abc" abc_uploading)
              = inr {| message := "Conversation processed" |}) by (vm_compute; reflexivity).
  split; [exact H|].
  exact (proj2 (proj2 (run_detects_with_capture_finished_iff_no_audio abc_task
                         abc_processing "abc" abc_uploading _)) H).
Defined.

End Examples.

(** ** The further properties on explicit inputs *)

Module Coverage.

Import Sample Scenario Edge.

(** C8, as stated, fails: the capture "abc" has a streaming handler and a
    chunked session; the chunk path's finalize succeeds, removes the chunked
    session, and the streaming handler is still registered. *)
Lemma process_capture_does_not_evict_the_stream :
  capture_handlers (app_state abc_both) !! "abc" = Some abc_handler
  ∧ fst (process_capture "abc" abc_both) = inr {| message := "Conversation processed" |}
  ∧ capture_files_by_id (app_state (snd (process_capture "abc" abc_both))) !! "abc" = None
  ∧ capture_handlers (app_state (snd (process_capture "abc" abc_both))) !! "abc"
    = Some abc_handler.
Proof. repeat split; vm_compute; reflexivity. Qed.


Lemma find_audio_filepath_no_match_witness :
  glob one_recording (capture_glob_pattern "captures") = [ abc_first ]
  ∧ find_audio_filepath one_recording "captures" "xyz" = inl ValueError.
Proof.
  assert (E : glob one_recording (capture_glob_pattern "captures") = [ abc_first ])
    by (vm_compute; reflexivity).
  split; [exact E|].
  apply (find_audio_filepath_no_match one_recording "captures" "xyz").
  assert (F : Forall (fun q => get_capture_uuid q ≠ Some "xyz") [ abc_first ]).
  { constructor; [|constructor]. vm_compute. intros H. discriminate H. }
  rewrite <- E in F. exact F.
Defined.

Lemma find_audio_filepath_sound_witness :
  find_audio_filepath two_recordings "captures" "abc" = inr (Some abc_first)
  ∧ abc_first ∈ glob two_recordings (capture_glob_pattern "captures")
  ∧ get_capture_uuid abc_first = Some "abc".
Proof.
  assert (E : find_audio_filepath two_recordings "captures" "abc" = inr (Some abc_first))
    by (vm_compute; reflexivity).
  split; [exact E|].
  exact (find_audio_filepath_sound two_recordings "captures" "abc" abc_first E).
Defined.

Lemma process_capture_file_not_found_witness :
  is_Some (capture_files_by_id (app_state abc_file_missing) !! "abc")
  ∧ find_audio_filepath (disk abc_file_missing) "captures" "abc" = inl ValueError
  ∧ fst (process_capture "abc" abc_file_missing) = inl (HTTPException 500 (StrOf ValueError)).
Proof.
  assert (E : find_audio_filepath (disk abc_file_missing) "captures" "abc" = inl ValueError)
    by (vm_compute; reflexivity).
  split; [vm_compute; eauto|]. split; [exact E|].
  by rewrite (process_capture_file_not_found "abc" abc_file_missing ValueError E).
Defined.

Lemma process_capture_unsupported_format_witness :
  find_audio_filepath (disk abc_as_mp3) "captures" "abc" = inr (Some abc_mp3)
  ∧ fst (process_capture "abc" abc_as_mp3) = inl (HTTPException 500 (StrOf AssertionError))
  ∧ is_Some (capture_files_by_id (app_state (snd (process_capture "abc" abc_as_mp3)))
             !! "abc").
Proof.
  assert (E : find_audio_filepath (disk abc_as_mp3) "captures" "abc" = inr (Some abc_mp3))
    by (vm_compute; reflexivity).
  split; [exact E|].
  rewrite (process_capture_unsupported_format "abc" abc_as_mp3 abc_mp3 abc_mp3_file
             abc_service E).
  - split; [reflexivity|]. vm_compute. eauto.
  - vm_compute; reflexivity.
  - vm_compute; reflexivity.
  - vm_compute. intros H. discriminate H.
  - vm_compute. intros H. discriminate H.
Defined.

Lemma process_capture_twice_witness :
  conversation_detection_service_by_id (app_state abc_uploading) !! "abc" = Some abc_service
  ∧ fst (process_capture "abc" (snd (process_capture "abc" abc_uploading)))
    = inl (HTTPException 500 (StrOf TypeError)).
Proof.
  split; [vm_compute; reflexivity|].
  apply (process_capture_twice "abc" abc_uploading abc_first abc_file abc_service).
  - vm_compute; reflexivity.
  - vm_compute; reflexivity.
  - vm_compute; reflexivity.
  - left. vm_compute; reflexivity.
Defined.

Lemma process_capture_failure_frame_witness :
  fst (process_capture "abc" after_restart) = inl (HTTPException 500 (StrOf TypeError))
  ∧ app_state (snd (process_capture "abc" after_restart)) = app_state after_restart.
Proof.
  assert (E : fst (process_capture "abc" after_restart)
              = inl (HTTPException 500 (StrOf TypeError))) by (vm_compute; reflexivity).
  split; [exact E|].
  exact (proj1 (proj2 (process_capture_failure_frame "abc" after_restart _ E))).
Defined.



Lemma upload_chunk_lost_detection_service_witness :
  capture_files_by_id (app_state abc_service_lost) !! "abc" = Some abc_file
  ∧ conversation_detection_service_by_id (app_state abc_service_lost) !! "abc" = None
  ∧ fst (upload_chunk wav_chunk "abc" "20240101" "ios" abc_service_lost)
    = inl (HTTPException 500
             (StrOf (HTTPException 500 (Text "Internal error: Lost conversation service")))).
Proof.
  split; [vm_compute; reflexivity|]. split; [vm_compute; reflexivity|].
  rewrite (upload_chunk_lost_detection_service wav_chunk "abc" "20240101" "ios"
             abc_service_lost abc_file).
  - reflexivity.
  - apply supported_upload_file_extensions_spec. right. left. vm_compute; reflexivity.
  - vm_compute; reflexivity.
  - vm_compute; reflexivity.
Defined.

Lemma upload_chunk_keeps_sessions_witness :
  registries_agree (app_state abc_uploading)
  ∧ capture_files_by_id
      (app_state (snd (upload_chunk wav_chunk "xyz" "20240303" "ios" abc_uploading)))
    !! "abc" = Some abc_file.
Proof.
  assert (A : registries_agree (app_state abc_uploading)) by (vm_compute; reflexivity).
  split; [exact A|].
  apply (upload_chunk_keeps_sessions wav_chunk "xyz" "20240303" "ios" abc_uploading A).
  vm_compute; reflexivity.
Defined.

Lemma process_capture_touches_one_session_witness :
  registries_agree (app_state abc_uploading)
  ∧ registries_agree (app_state (snd (process_capture "abc" abc_uploading))).
Proof.
  assert (A : registries_agree (app_state abc_uploading)) by (vm_compute; reflexivity).
  split; [exact A|].
  exact (proj1 (process_capture_touches_one_session "abc" abc_uploading A)).
Defined.

Lemma run_sends_a_prefix_of_the_updates_witness :
  detect_conversations abc_service (Some [x10; x20]) "wav" false second_fails
  = (inr three_completed, quiet)
  ∧ ∃ n, select sent_progress (trace (snd (run abc_task abc_processing)))
         = take n (progress_updates_of abc_file three_completed).
Proof.
  split; [vm_compute; reflexivity|].
  destruct (run_sends_a_prefix_of_the_updates abc_task abc_processing three_completed
              quiet quiet) as [n Hn].
  - vm_compute; reflexivity.
  - vm_compute; reflexivity.
  - exists n. exact Hn.
Defined.

Lemma complete_audio_unknown_session_witness :
  capture_handlers (app_state after_restart) !! "abc" = None
  ∧ fst (complete_audio "abc" after_restart)
    = inl (HTTPException 500 (Text "Capture session not found")).
Proof.
  assert (E : capture_handlers (app_state after_restart) !! "abc" = None)
    by (vm_compute; reflexivity).
  split; [exact E|].
  by rewrite (complete_audio_unknown_session "abc" after_restart E).
Defined.


Lemma upload_chunk_name_without_dot_witness :
  lacks PyStr.dot (filename bare_chunk)
  ∧ upload_chunk bare_chunk "abc" "20240101" "ios" after_restart
    = (inr {| message := "Failed to process because file extension is unsupported: " |},
       after_restart).
Proof.
  assert (L : lacks PyStr.dot (filename bare_chunk)).
  { intros i. do 6 (destruct i as [|i]; [simpl; intros H; discriminate H|]).
    simpl. intros H; discriminate H. }
  split; [exact L|].
  exact (proj2 (upload_chunk_name_without_dot bare_chunk "abc" "20240101" "ios"
                  after_restart L)).
Defined.

Lemma extension_of_stem_dot_ext_witness :
  lacks PyStr.dot "wav" ∧ extension_of "chunk.wav" = "wav".
Proof.
  assert (L : ∀ c, c ≠ "w"%char → c ≠ "a"%char → c ≠ "v"%char → lacks c "wav").
  { intros c Hw Ha Hv i. do 3 (destruct i as [|i]; [simpl; congruence|]).
    simpl. intros H; discriminate H. }
  assert (L' : lacks PyStr.slash "chunk").
  { intros i. do 5 (destruct i as [|i]; [simpl; intros H; discriminate H|]).
    simpl. intros H; discriminate H. }
  split; [apply L; intros H; discriminate H|].
  apply (extension_of_stem_dot_ext "c"%char "hunk" "wav").
  - intros H; discriminate H.
  - exact L'.
  - apply L; intros H; discriminate H.
  - apply L; intros H; discriminate H.
Defined.

End Coverage.

Module FaultyCoverage.

Import Scenario Edge.

#[local] Existing Instance Faulty.collaborators.



Lemma run_detection_failure_witness :
  fst (run abc_task (Faulty.world abc_session ∅ Faulty.no_detector))
  = inl (CollaboratorError "detector down").
Proof.
  by rewrite (run_detection_failure abc_task (Faulty.world abc_session ∅ Faulty.no_detector)
                (CollaboratorError "detector down") Faulty.no_detector eq_refl).
Defined.

Lemma run_extraction_failure_witness :
  fst (run abc_task (Faulty.world abc_session ∅ Faulty.no_extractor))
  = inl (CollaboratorError "extractor down")
  ∧ select sent_progress
      (trace (snd (run abc_task (Faulty.world abc_session ∅ Faulty.no_extractor)))) = [].
Proof.
  destruct (run_extraction_failure abc_task (Faulty.world abc_session ∅ Faulty.no_extractor)
              Faulty.results (CollaboratorError "extractor down")
              Faulty.no_extractor Faulty.no_extractor eq_refl eq_refl)
    as (Hr & _ & _ & Hs).
  split; [exact Hr|exact Hs].
Defined.


End FaultyCoverage.
